(** * Flight simulation engine: a shallow embedding

    The program is a browser script (three.js) that animates the flights
    of a dataset between airports on a globe.  This development embeds
    the simulation and update engine of that script:

    - [Flight.parseTime], [Flight.calculateDuration], [Flight.update],
      [calculateCurvePoints], [updateInstancedPlanes], [animate], the
      speed-slider listener of [setupSpeedControl], [createAirportStars]
      and the [raycast] override of the instanced plane mesh.

    Numbers.  A JavaScript Number is an IEEE 754 binary64 value, which is
    exactly Rocq's primitive [float]: [+ - * / sqrt] and the comparisons
    are the kernel's, and [NaN], the infinities and the signed zeros
    behave as they do in the script.  Integer-valued Numbers that are used
    as array indices and loop counters ([dynamicSegmentIndex], the result
    of [Math.floor], the plane counts) are carried as [Z]; the places where
    a binary64 counter and an integer differ (a target at or above 2^53, an
    infinite target) are modelled as the non-terminating loops they are.

    Library code.  [Math.sin], [Math.cos] and [Math.atan2] are
    implementation-approximated in ECMAScript; they are a parameter
    ([MathLib]).  The three.js vector helpers used by the script are
    written out from their definitions in three.js r152. *)

From Stdlib Require Import Floats ZArith Bool List String Ascii Lia.
From Stdlib Require Reals Lra.
Import ListNotations.

Set Implicit Arguments.
Set Warnings "-inexact-float".

(* ================================================================== *)
(** * JavaScript values and built-ins *)
(* ================================================================== *)

Module JS.

(** How a call completes: it returns, it throws, or it never returns. *)
Inductive completion (A : Type) : Type :=
| Normal (a : A)
| Throw (msg : string)
| Diverge.
Arguments Throw {A} msg.
Arguments Diverge {A}.

Definition bind {A B} (c : completion A) (k : A -> completion B) : completion B :=
  match c with
  | Normal a => k a
  | Throw m => Throw m
  | Diverge => Diverge
  end.

(** The values a parsed CSV field can hold (PapaParse with
    [dynamicTyping]) and [undefined] for an absent field. *)
Inductive value : Type :=
| Undefined
| Null
| Bool (b : bool)
| Num (x : float)
| Str (s : string).

(** [ToBoolean]. *)
Definition truthy (v : value) : bool :=
  match v with
  | Undefined | Null => false
  | Bool b => b
  | Num x => negb (PrimFloat.is_zero x || PrimFloat.is_nan x)
  | Str s => negb (String.eqb s "")
  end.

(** The binary64 value nearest to an integer (ties to even). *)
Definition float_of_Z (z : Z) : float :=
  SF2Prim (binary_normalize prec emax z 0 false).

(** The binary64 value nearest to [(-1)^neg * m * 10^e], for [0 <= m]. *)
Definition float_of_decimal (neg : bool) (m e : Z) : float :=
  match m with
  | Zpos p =>
      if (0 <=? e)%Z
      then SF2Prim (binary_normalize prec emax
                      (if neg then Z.opp (m * 10 ^ e) else m * 10 ^ e) 0 false)
      else SF2Prim (SFdiv prec emax (S754_finite neg p 0)
                      (S754_finite false (Z.to_pos (10 ^ (- e))) 0))
  | _ => if neg then PrimFloat.neg_zero else PrimFloat.zero
  end.

(** The result of [Math.floor]: an integer, or one of the three
    non-finite values. *)
Inductive floored : Type :=
| FlNaN
| FlInf (neg : bool)
| FlInt (z : Z).

Definition Math_floor (x : float) : floored :=
  match Prim2SF x with
  | S754_nan => FlNaN
  | S754_infinity s => FlInf s
  | S754_zero _ => FlInt 0
  | S754_finite s m e => FlInt (Z.shiftl (if s then Zneg m else Zpos m) e)
  end.

(** [Math.fround]: rounding to binary32, the element type of a
    [Float32Array]. *)
Definition Math_fround (x : float) : float :=
  match Prim2SF x with
  | S754_finite s m e => SF2Prim (binary_round 24 128 s m e)
  | _ => x
  end.

(** ** Strings *)

Definition is_white_space (c : ascii) : bool :=
  let n := nat_of_ascii c in
  Nat.eqb n 32 || (Nat.leb 9 n && Nat.leb n 13).

Fixpoint trim_start (s : list ascii) : list ascii :=
  match s with
  | c :: r => if is_white_space c then trim_start r else s
  | [] => []
  end.

(** [String.prototype.trim] (ASCII white space and line terminators). *)
Definition trim (s : list ascii) : list ascii :=
  rev (trim_start (rev (trim_start s))).

Fixpoint split_from (sep : ascii) (cur : list ascii) (s : list ascii)
  : list (list ascii) :=
  match s with
  | [] => [rev cur]
  | c :: r =>
      if Ascii.eqb c sep then rev cur :: split_from sep [] r
      else split_from sep (c :: cur) r
  end.

(** [String.prototype.split] with a one-character separator. *)
Definition split (sep : ascii) (s : list ascii) : list (list ascii) :=
  split_from sep [] s.

(** ** [Number(string)]: the StringNumericLiteral grammar *)

Definition digit_in (radix : Z) (c : ascii) : option Z :=
  let n := Z.of_nat (nat_of_ascii c) in
  let d :=
    if ((48 <=? n) && (n <=? 57))%Z then Some (n - 48)%Z
    else if ((97 <=? n) && (n <=? 102))%Z then Some (n - 87)%Z
    else if ((65 <=? n) && (n <=? 70))%Z then Some (n - 55)%Z
    else None in
  match d with
  | Some v => if (v <? radix)%Z then Some v else None
  | None => None
  end.

(** The longest run of digits at the head of [s]: the value accumulated
    onto [acc], the number of digits read, and the rest. *)
Fixpoint digits (radix : Z) (acc : Z) (n : Z) (s : list ascii)
  : Z * Z * list ascii :=
  match s with
  | c :: r =>
      match digit_in radix c with
      | Some v => digits radix (acc * radix + v)%Z (n + 1)%Z r
      | None => (acc, n, s)
      end
  | [] => (acc, n, [])
  end.

Definition is_char (c : ascii) (k : string) : bool :=
  match k with
  | String a EmptyString => Ascii.eqb c a
  | _ => false
  end.

(** ExponentPart, read after the mantissa: [Some e] when the rest of the
    literal is empty ([e = 0]) or a well-formed exponent. *)
Definition exponent_part (s : list ascii) : option Z :=
  match s with
  | [] => Some 0%Z
  | c :: r =>
      if is_char c "e" || is_char c "E" then
        let '(neg, r') :=
          match r with
          | d :: r'' =>
              if is_char d "-" then (true, r'')
              else if is_char d "+" then (false, r'') else (false, r)
          | [] => (false, r)
          end in
        match digits 10 0 0 r' with
        | (v, n, []) =>
            if (0 <? n)%Z then Some (if neg then (- v)%Z else v) else None
        | _ => None
        end
      else None
  end.

(** StrUnsignedDecimalLiteral. *)
Definition unsigned_decimal (neg : bool) (s : list ascii) : float :=
  if list_eq_dec ascii_dec s (list_ascii_of_string "Infinity")
  then (if neg then neg_infinity else infinity)
  else
    let '(ip, ni, r1) := digits 10 0 0 s in
    let '(m, nf, r2) :=
      match r1 with
      | c :: r => if is_char c "." then digits 10 ip 0 r else (ip, 0%Z, r1)
      | [] => (ip, 0%Z, r1)
      end in
    if (0 <? ni + nf)%Z then
      match exponent_part r2 with
      | Some e => float_of_decimal neg m (e - nf)
      | None => nan
      end
    else nan.

Definition non_decimal (radix : Z) (s : list ascii) : float :=
  match digits radix 0 0 s with
  | (v, n, []) => if (0 <? n)%Z then float_of_Z v else nan
  | _ => nan
  end.

(** [StringToNumber]. *)
Definition StringToNumber (str : string) : float :=
  match trim (list_ascii_of_string str) with
  | [] => PrimFloat.zero
  | c :: r =>
      if is_char c "-" then unsigned_decimal true r
      else if is_char c "+" then unsigned_decimal false r
      else
        match r with
        | p :: r' =>
            if is_char c "0" && (is_char p "x" || is_char p "X")
            then non_decimal 16 r'
            else if is_char c "0" && (is_char p "o" || is_char p "O")
            then non_decimal 8 r'
            else if is_char c "0" && (is_char p "b" || is_char p "B")
            then non_decimal 2 r'
            else unsigned_decimal false (c :: r)
        | [] => unsigned_decimal false (c :: r)
        end
  end.

(** [ToNumber] of an array element that may be absent. *)
Definition ToNumber_opt (x : option float) : float :=
  match x with
  | Some v => v
  | None => nan
  end.

End JS.

(* ================================================================== *)
(** * three.js vector helpers and the path generator *)
(* ================================================================== *)

(** The vector code is written once over the scalar operations it uses.
    It is run on binary64 ([float_scalar], what the script computes) and
    read in exact arithmetic ([real_scalar], further down) where a claim
    speaks of exact equality of points. *)
Module Three.

Class Scalar (N : Type) : Type := {
  s_add : N -> N -> N;
  s_sub : N -> N -> N;
  s_mul : N -> N -> N;
  s_div : N -> N -> N;
  s_sqrt : N -> N;
  s_sin : N -> N;
  s_cos : N -> N;
  s_of_Z : Z -> N;             (* an integer literal or counter *)
  s_decimal : Z -> Z -> N;     (* the literal m * 10^e *)
  s_PI : N;                    (* Math.PI *)
  s_or : N -> N -> N           (* x || y *)
}.

Record Vector3 (N : Type) : Type := mkVector3 { x : N; y : N; z : N }.
Arguments mkVector3 {N} x y z.
Arguments x {N} v.
Arguments y {N} v.
Arguments z {N} v.

Section Vectors.
Context {N : Type} {S : Scalar N}.

(** [MathUtils.degToRad]: [degrees * DEG2RAD], [DEG2RAD = Math.PI / 180]. *)
Definition DEG2RAD : N := s_div s_PI (s_of_Z 180).
Definition degToRad (degrees : N) : N := s_mul degrees DEG2RAD.

(** [Vector3.setFromSphericalCoords(radius, phi, theta)]. *)
Definition setFromSphericalCoords (radius phi theta : N) : Vector3 N :=
  let sinPhiRadius := s_mul (s_sin phi) radius in
  mkVector3 (s_mul sinPhiRadius (s_sin theta))
            (s_mul (s_cos phi) radius)
            (s_mul sinPhiRadius (s_cos theta)).

(** [Vector3.lerpVectors(v1, v2, alpha)]. *)
Definition lerpVectors (v1 v2 : Vector3 N) (alpha : N) : Vector3 N :=
  mkVector3 (s_add (x v1) (s_mul (s_sub (x v2) (x v1)) alpha))
            (s_add (y v1) (s_mul (s_sub (y v2) (y v1)) alpha))
            (s_add (z v1) (s_mul (s_sub (z v2) (z v1)) alpha)).

Definition multiplyScalar (v : Vector3 N) (s : N) : Vector3 N :=
  mkVector3 (s_mul (x v) s) (s_mul (y v) s) (s_mul (z v) s).

(** [divideScalar(s)] is [multiplyScalar(1 / s)]. *)
Definition divideScalar (v : Vector3 N) (s : N) : Vector3 N :=
  multiplyScalar v (s_div (s_of_Z 1) s).

Definition length (v : Vector3 N) : N :=
  s_sqrt (s_add (s_add (s_mul (x v) (x v)) (s_mul (y v) (y v)))
                (s_mul (z v) (z v))).

(** [normalize()] is [divideScalar(length() || 1)]. *)
Definition normalize (v : Vector3 N) : Vector3 N :=
  divideScalar v (s_or (length v) (s_of_Z 1)).

(** [Flight.prototype.latLongToVector3(lat, lon, radius)]. *)
Definition latLongToVector3 (lat lon radius : N) : Vector3 N :=
  let phi := degToRad (s_sub (s_of_Z 90) lat) in
  let theta := degToRad (s_add lon (s_of_Z 90)) in
  setFromSphericalCoords radius phi theta.

(** The altitude literal [1.05]. *)
Definition altitude : N := s_decimal 105 (-2).

(** [calculateCurvePoints(originLat, originLon, destLat, destLon,
    segments)], for a natural number of segments: the loop
    [for (i = 0; i <= segments; i++)] pushes one point per [i]. *)
Definition curvePoint (start end_ : Vector3 N) (segments i : nat) : Vector3 N :=
  let t := s_div (s_of_Z (Z.of_nat i)) (s_of_Z (Z.of_nat segments)) in
  multiplyScalar (normalize (lerpVectors start end_ t)) altitude.

Definition calculateCurvePoints (originLat originLon destLat destLon : N)
    (segments : nat) : list (Vector3 N) :=
  let start := latLongToVector3 originLat originLon altitude in
  let end_ := latLongToVector3 destLat destLon altitude in
  map (curvePoint start end_ segments) (seq 0 (segments + 1)).

End Vectors.

(** [Math.sin], [Math.cos], [Math.atan2] of the host. *)
Record MathLib : Type := {
  Math_sin : float -> float;
  Math_cos : float -> float;
  Math_atan2 : float -> float -> float
}.

(** [x || y] on Numbers: [y] when [x] is [0], [-0] or [NaN]. *)
Definition float_or (a b : float) : float :=
  if JS.truthy (JS.Num a) then a else b.

(** [Math.PI]. *)
Definition Math_PI : float := 0x1.921fb54442d18p+1%float.

Definition float_scalar (M : MathLib) : Scalar float := {|
  s_add := PrimFloat.add;
  s_sub := PrimFloat.sub;
  s_mul := PrimFloat.mul;
  s_div := PrimFloat.div;
  s_sqrt := PrimFloat.sqrt;
  s_sin := Math_sin M;
  s_cos := Math_cos M;
  s_of_Z := JS.float_of_Z;
  s_decimal := JS.float_of_decimal false;
  s_PI := Math_PI;
  s_or := float_or
|}.

End Three.

(* ================================================================== *)
(** * The engine: flights, airports, the per-frame update *)
(* ================================================================== *)

Module Engine.
Import JS Three.
Local Open Scope float_scope.

(** [const FLIGHT_SPEED = 0.00015]. *)
Definition FLIGHT_SPEED : float := 0.00015.

(** A row of the dataset, as PapaParse hands it over: numeric
    coordinates and the departure-time field. *)
Record FlightData : Type := {
  origin_lat : float;
  origin_lon : float;
  destination_lat : float;
  destination_lon : float;
  departure_time : JS.value
}.

(** The instance matrix of one plane.  [dummy.matrix] is a function of
    the flight's coordinates and of the progress [t] it was computed at,
    so a slot records exactly those; [Unwritten] is the slot of a plane
    for which [setMatrixAt] was never called. *)
Inductive Matrix4 : Type :=
| Unwritten
| PlaneMatrix (d : FlightData) (t : float).

(** A [Flight] object.  [departed] and [arrived] are not set by the
    constructor: they are [undefined], which [!] reads as false. *)
Record Flight : Type := {
  data : FlightData;
  startTime : float;
  duration : float;
  curvePoints : list (Vector3 float);
  positions : list float;      (* dynamicPath.geometry.attributes.position.array *)
  dynamicPathAdded : bool;
  dynamicSegmentIndex : Z;
  departed : bool;
  arrived : bool
}.

(** An entry of [airportStars]: the [data] object of one airport. *)
Record Airport : Type := {
  lat : float;
  lon : float;
  planes : Z
}.

(** The globals of the script that the engine reads and writes. *)
Record State : Type := {
  flights : list Flight;
  airportStars : list Airport;
  instanceMatrix : list Matrix4;  (* planeInstances.instanceMatrix *)
  TIME_ACCELERATION : float
}.

(** ** [Flight.parseTime] *)

Definition parseTime (timeString : JS.value) : float :=
  match timeString with
  | Str s =>
      if negb (truthy timeString) then 0
      else
        let parts := map (fun p => StringToNumber (string_of_list_ascii p))
                         (split ":" (trim (list_ascii_of_string s))) in
        let hours := ToNumber_opt (nth_error parts 0) in
        let minutes := ToNumber_opt (nth_error parts 1) in
        (hours * 60 + minutes) * 60
  | _ => 0
  end.

(** ** [Flight.calculateDuration] *)

(** [x ** 2] is taken as [x * x]. *)
Definition square (a : float) : float := a * a.

Definition calculateDuration (M : MathLib) (d : FlightData) : float :=
  let S := float_scalar M in
  let dLat := degToRad (destination_lat d - origin_lat d) in
  let dLon := degToRad (destination_lon d - origin_lon d) in
  let a := square (Math_sin M (dLat / 2)) +
           Math_cos M (degToRad (origin_lat d)) *
           Math_cos M (degToRad (destination_lat d)) *
           square (Math_sin M (dLon / 2)) in
  let distance := 2 * Math_atan2 M (sqrt a) (sqrt (1 - a)) in
  distance / FLIGHT_SPEED.

(** ** [Flight.createDynamicPath] and the constructor *)

(** [new Float32Array((curvePoints.length - 1) * 6)]: zero-filled. *)
Definition createDynamicPath (pts : list (Vector3 float)) : list float :=
  repeat 0 ((List.length pts - 1) * 6).

Definition Flight_new (M : MathLib) (d : FlightData) : Flight :=
  let pts := @calculateCurvePoints _ (float_scalar M)
               (origin_lat d) (origin_lon d)
               (destination_lat d) (destination_lon d) 50 in
  {| data := d;
     startTime := parseTime (departure_time d);
     duration := calculateDuration M d;
     curvePoints := pts;
     positions := createDynamicPath pts;
     dynamicPathAdded := false;
     dynamicSegmentIndex := 0;
     departed := false;
     arrived := false |}.

(** ** [Flight.update] *)

(** [a[k]] for an integer-valued index: [undefined] out of range. *)
Definition index {A} (a : list A) (k : Z) : option A :=
  if (k <? 0)%Z then None else nth_error a (Z.to_nat k).

(** [a[k] = v] on a [Float32Array]: the value is rounded to binary32;
    a store outside the array is ignored. *)
Fixpoint store_nat (a : list float) (k : nat) (v : float) : list float :=
  match a, k with
  | [], _ => []
  | _ :: r, O => Math_fround v :: r
  | c :: r, S k' => c :: store_nat r k' v
  end.

Definition Float32Array_set (a : list float) (k : Z) (v : float) : list float :=
  if (k <? 0)%Z then a else store_nat a (Z.to_nat k) v.

(** The six stores of the loop body for segment [i]. *)
Definition segmentStores (i : Z) (start end_ : Vector3 float) : list (Z * float) :=
  let offset := (i * 6)%Z in
  [ (offset, x start); ((offset + 1)%Z, y start); ((offset + 2)%Z, z start);
    ((offset + 3)%Z, x end_); ((offset + 4)%Z, y end_); ((offset + 5)%Z, z end_) ].

(** [n] iterations of the loop body, from counter [i]: the stores they
    issue, in order.  [start.x] on an [undefined] start throws. *)
Fixpoint drawSegments (n : nat) (i : Z) (pts : list (Vector3 float))
  : completion (list (Z * float)) :=
  match n with
  | O => Normal []
  | S n' =>
      match index pts (i + 1) with
      | Some end_ =>
          match index pts i with
          | Some start =>
              bind (drawSegments n' (i + 1) pts)
                   (fun ws => Normal (segmentStores i start end_ ++ ws))
          | None => Throw "TypeError: start is undefined"
          end
      | None => drawSegments n' (i + 1) pts
      end
  end.

(** [targetSegmentIndex > this.dynamicSegmentIndex]. *)
Definition floored_gt (target : floored) (k : Z) : bool :=
  match target with
  | FlNaN => false
  | FlInf neg => negb neg
  | FlInt z => (k <? z)%Z
  end.

(** The loop [for (let i = from; i <= target; i++)].  With a finite
    target below 2^53 it runs [target - from + 1] times.  Otherwise the
    counter never passes the target: the loop throws if an iteration
    throws (all iterations from [curvePoints.length] on are empty) and
    does not terminate if none does. *)
Definition drawLoop (from : Z) (target : floored) (pts : list (Vector3 float))
  : completion (list (Z * float)) :=
  let endless :=
    bind (drawSegments (Z.to_nat (Z.of_nat (List.length pts) - from)) from pts)
         (fun _ => Diverge) in
  match target with
  | FlInt z =>
      if (z <? 2 ^ 53)%Z
      then drawSegments (Z.to_nat (z - from + 1)) from pts
      else endless
  | _ => endless
  end.

Definition applyStores (a : list float) (ws : list (Z * float)) : list float :=
  fold_left (fun a' w => Float32Array_set a' (fst w) (snd w)) ws a.

Definition setAdded (f : Flight) : Flight :=
  {| data := data f; startTime := startTime f; duration := duration f;
     curvePoints := curvePoints f; positions := positions f;
     dynamicPathAdded := true;
     dynamicSegmentIndex := dynamicSegmentIndex f;
     departed := departed f; arrived := arrived f |}.

Definition setPath (f : Flight) (ps : list float) (k : Z) : Flight :=
  {| data := data f; startTime := startTime f; duration := duration f;
     curvePoints := curvePoints f; positions := ps;
     dynamicPathAdded := dynamicPathAdded f;
     dynamicSegmentIndex := k;
     departed := departed f; arrived := arrived f |}.

(** The first [if] of [update]: the path is added to the scene once the
    start time is reached. *)
Definition added (currentTime : float) (f : Flight) : Flight :=
  if (startTime f <=? currentTime) && negb (dynamicPathAdded f)
  then setAdded f else f.

(** [targetSegmentIndex] of a tick. *)
Definition targetSegmentIndex (currentTime : float) (f : Flight) : floored :=
  let t := (currentTime - startTime f) / duration f in
  Math_floor (t * float_of_Z (Z.of_nat (List.length (curvePoints f)) - 1)).

Definition update (currentTime : float) (f : Flight) : completion Flight :=
  let f1 := added currentTime f in
  if dynamicPathAdded f1 && (currentTime <=? startTime f1 + duration f1) then
    let target := targetSegmentIndex currentTime f1 in
    if floored_gt target (dynamicSegmentIndex f1) then
      bind (drawLoop (dynamicSegmentIndex f1) target (curvePoints f1))
           (fun ws =>
              match target with
              | FlInt z => Normal (setPath f1 (applyStores (positions f1) ws) z)
              | _ => Diverge
              end)
    else Normal f1
  else Normal f1.

(** ** [updateInstancedPlanes] *)

(** Equality of the template strings [`${lat},${lon}`]: Number-to-string
    conversion sends [NaN] to "NaN", both zeros to "0", and distinct
    other values to distinct strings without a comma. *)
Definition sameNumberString (a b : float) : bool :=
  (a =? b) || (PrimFloat.is_nan a && PrimFloat.is_nan b).

Definition hasKey (la lo : float) (a : Airport) : bool :=
  sameNumberString (lat a) la && sameNumberString (lon a) lo.

(** [const a = airportStars.find(...); if (a) a.data.planes += delta]. *)
Fixpoint adjustPlanes (la lo : float) (delta : Z) (l : list Airport)
  : list Airport :=
  match l with
  | [] => []
  | a :: r =>
      if hasKey la lo a
      then {| lat := lat a; lon := lon a; planes := (planes a + delta)%Z |} :: r
      else a :: adjustPlanes la lo delta r
  end.

Definition setDeparted (f : Flight) : Flight :=
  {| data := data f; startTime := startTime f; duration := duration f;
     curvePoints := curvePoints f; positions := positions f;
     dynamicPathAdded := dynamicPathAdded f;
     dynamicSegmentIndex := dynamicSegmentIndex f;
     departed := true; arrived := arrived f |}.

Definition setArrived (f : Flight) : Flight :=
  {| data := data f; startTime := startTime f; duration := duration f;
     curvePoints := curvePoints f; positions := positions f;
     dynamicPathAdded := dynamicPathAdded f;
     dynamicSegmentIndex := dynamicSegmentIndex f;
     departed := departed f; arrived := true |}.

(** The progress [t] of a flight at a simulated time. *)
Definition progress (currentTime : float) (f : Flight) : float :=
  (currentTime - startTime f) / duration f.

Definition enRoute (t : float) : bool := (0 <=? t) && (t <=? 1).

(** The body of [flights.forEach((flight, index) => ...)] for one flight:
    the flight, its slot of the instance matrix, and the airports. *)
Definition updatePlane (currentTime : float) (f : Flight) (slot : Matrix4)
    (airports : list Airport) : Flight * Matrix4 * list Airport :=
  let t := progress currentTime f in
  if enRoute t then
    let slot' := PlaneMatrix (data f) t in
    if (t <? 0.01) && negb (departed f) then
      (setDeparted f, slot',
       adjustPlanes (origin_lat (data f)) (origin_lon (data f)) (-1) airports)
    else if (0.99 <? t) && negb (arrived f) then
      (setArrived f, slot',
       adjustPlanes (destination_lat (data f)) (destination_lon (data f)) 1 airports)
    else (f, slot', airports)
  else (f, slot, airports).

(** The [forEach] over all flights; slot [index] belongs to flight
    [index].  A flight beyond the end of the instance matrix has no slot
    to write. *)
Fixpoint updatePlanes (currentTime : float) (fs : list Flight)
    (ms : list Matrix4) (airports : list Airport)
  : list Flight * list Matrix4 * list Airport :=
  match fs with
  | [] => ([], ms, airports)
  | f :: fs' =>
      let '(f', slot', airports') :=
        updatePlane currentTime f (hd Unwritten ms) airports in
      let '(fs'', ms', airports'') :=
        updatePlanes currentTime fs' (tl ms) airports' in
      (f' :: fs'',
       match ms with [] => [] | _ :: _ => slot' :: ms' end,
       airports'')
  end.

Definition updateInstancedPlanes (currentTime : float) (s : State) : State :=
  match flights s with
  | [] => s
  | _ :: _ =>
      let '(fs, ms, airports) :=
        updatePlanes currentTime (flights s) (instanceMatrix s) (airportStars s) in
      {| flights := fs; airportStars := airports; instanceMatrix := ms;
         TIME_ACCELERATION := TIME_ACCELERATION s |}
  end.

(** ** [animate] and the speed slider *)

(** [flights.forEach(flight => flight.update(currentTime))]. *)
Fixpoint updateAll (currentTime : float) (fs : list Flight)
  : completion (list Flight) :=
  match fs with
  | [] => Normal []
  | f :: fs' =>
      bind (update currentTime f) (fun f' =>
      bind (updateAll currentTime fs') (fun fs'' => Normal (f' :: fs'')))
  end.

(** The simulated time of a frame: [clock.getElapsedTime() *
    TIME_ACCELERATION]. *)
Definition simTime (elapsed : float) (s : State) : float :=
  elapsed * TIME_ACCELERATION s.

(** One frame; [elapsed] is what [clock.getElapsedTime()] returns, the
    real seconds since the clock started. *)
Definition animate (elapsed : float) (s : State) : completion State :=
  let currentTime := simTime elapsed s in
  let s1 := updateInstancedPlanes currentTime s in
  bind (updateAll currentTime (flights s1)) (fun fs =>
  Normal {| flights := fs; airportStars := airportStars s1;
            instanceMatrix := instanceMatrix s1;
            TIME_ACCELERATION := TIME_ACCELERATION s1 |}).

(** The listener of the slider: [TIME_ACCELERATION = 1440 /
    speedSlider.value], the value being a string. *)
Definition speedSliderInput (value : string) (s : State) : State :=
  {| flights := flights s; airportStars := airportStars s;
     instanceMatrix := instanceMatrix s;
     TIME_ACCELERATION := 1440 / StringToNumber value |}.

(** What happens between two frames. *)
Inductive event : Type :=
| Frame (elapsed : float)
| SpeedInput (value : string).

Definition step (e : event) (s : State) : completion State :=
  match e with
  | Frame elapsed => animate elapsed s
  | SpeedInput v => Normal (speedSliderInput v s)
  end.

Fixpoint run (es : list event) (s : State) : completion State :=
  match es with
  | [] => Normal s
  | e :: es' => bind (step e s) (run es')
  end.

(** The simulated times of the frames of a run, in order. *)
Fixpoint frameTimes (es : list event) (s : State) : list float :=
  match es with
  | [] => []
  | Frame elapsed :: es' => simTime elapsed s :: frameTimes es' s
  | SpeedInput v :: es' => frameTimes es' (speedSliderInput v s)
  end.

(** ** [createAirportStars] and [loadFlightData] *)

Definition hasAirport (la lo : float) (l : list Airport) : bool :=
  existsb (hasKey la lo) l.

(** [if (!airportData[key]) airportData[key] = {lat, lon, planes: 0}]. *)
Definition ensureAirport (la lo : float) (l : list Airport) : list Airport :=
  if hasAirport la lo l then l
  else l ++ [ {| lat := la; lon := lo; planes := 0 |} ].

Definition registerFlight (l : list Airport) (f : Flight) : list Airport :=
  let d := data f in
  let l1 := ensureAirport (origin_lat d) (origin_lon d) l in
  let l2 := adjustPlanes (origin_lat d) (origin_lon d) 1 l1 in
  ensureAirport (destination_lat d) (destination_lon d) l2.

Definition createAirportStars (fs : list Flight) : list Airport :=
  fold_left registerFlight fs [].

(** The rows with a truthy [departure_time] become flights. *)
Definition loadFlightData (M : MathLib) (rows : list FlightData) : State :=
  let fs := map (Flight_new M)
                (filter (fun d => truthy (departure_time d)) rows) in
  {| flights := fs;
     airportStars := createAirportStars fs;
     instanceMatrix := repeat Unwritten (List.length fs);
     TIME_ACCELERATION := 1440 / 5 |}.

(** ** Runs of ticks *)

(** The two windows of the occupancy code. *)
Definition departureWindow (t : float) : bool := enRoute t && (t <? 0.01).
Definition arrivalWindow (t : float) : bool := enRoute t && (0.99 <? t).

(** What the body of the [forEach] reads and writes for one flight. *)
Definition PlaneState : Type := (Flight * Matrix4 * list Airport)%type.

Definition tickPlane (currentTime : float) (p : PlaneState) : PlaneState :=
  let '(f, slot, airports) := p in updatePlane currentTime f slot airports.

(** The successive states of one flight under a sequence of ticks. *)
Fixpoint planeTrace (cts : list float) (p : PlaneState) : list PlaneState :=
  p :: match cts with
       | [] => []
       | ct :: r => planeTrace r (tickPlane ct p)
       end.

Definition planeAfter (cts : list float) (p : PlaneState) : PlaneState :=
  fold_left (fun q ct => tickPlane ct q) cts p.

(** How often a flag goes from false to true along a trace. *)
Fixpoint flips (flag : Flight -> bool) (tr : list PlaneState) : nat :=
  match tr with
  | p :: (q :: _) as r =>
      (if negb (flag (fst (fst p))) && flag (fst (fst q)) then 1 else 0)%nat
      + flips flag r
  | _ => 0%nat
  end.

(** Ticks of the whole state. *)
Definition ticks (cts : list float) (s : State) : State :=
  fold_left (fun s' ct => updateInstancedPlanes ct s') cts s.

(** Successive calls of [Flight.update]. *)
Fixpoint updates (cts : list float) (f : Flight) : completion Flight :=
  match cts with
  | [] => Normal f
  | ct :: r => bind (update ct f) (updates r)
  end.

(** The stores into the position buffer that one call of [update]
    issues. *)
Definition updateStores (currentTime : float) (f : Flight)
  : completion (list (Z * float)) :=
  let f1 := added currentTime f in
  if dynamicPathAdded f1 && (currentTime <=? startTime f1 + duration f1) then
    let target := targetSegmentIndex currentTime f1 in
    if floored_gt target (dynamicSegmentIndex f1)
    then drawLoop (dynamicSegmentIndex f1) target (curvePoints f1)
    else Normal []
  else Normal [].

(** What every call of [update] keeps: the index is not negative, and
    the buffer has six floats for each segment of the path. *)
Definition well_formed (f : Flight) : Prop :=
  (0 <= dynamicSegmentIndex f)%Z
  /\ List.length (positions f) = ((List.length (curvePoints f) - 1) * 6)%nat.

(** What the body of the [forEach] makes of a flight; it depends neither
    on the slot nor on the airports. *)
Definition flightAfterTick (ct : float) (f : Flight) : Flight :=
  fst (fst (updatePlane ct f Unwritten [])).

(** The acceleration in force after a sequence of events. *)
Fixpoint accelerationAfter (es : list event) (a : float) : float :=
  match es with
  | [] => a
  | Frame _ :: es' => accelerationAfter es' a
  | SpeedInput v :: es' => accelerationAfter es' (1440 / StringToNumber v)
  end.

(** ** Picking: [planeInstances.raycast] and the [mousemove] listener *)

Record Intersection : Type := {
  distance : float;
  instanceId : nat
}.

Section Picking.

(** The ray of the raycaster, and what three.js computes for it:
    [hitDistance ray m] is [Some d] when the ray, taken into the local
    frame of the instance matrix [m], meets the bounding sphere, [d]
    being the distance from the ray origin to the intersection point
    taken back to world space; [starDistance ray a] is the same for the
    [Mesh] of an airport star. *)
Variable Ray : Type.
Variable hitDistance : Ray -> Matrix4 -> option float.
Variable starDistance : Ray -> Airport -> option float.

(** The loop of [raycast] from slot [i] on. *)
Fixpoint raycastFrom (ray : Ray) (near far : float) (i : nat)
    (ms : list Matrix4) : list Intersection :=
  match ms with
  | [] => []
  | m :: r =>
      match hitDistance ray m with
      | Some d =>
          if (d <? near) || (far <? d)
          then raycastFrom ray near far (S i) r
          else {| distance := d; instanceId := i |}
               :: raycastFrom ray near far (S i) r
      | None => raycastFrom ray near far (S i) r
      end
  end.

Definition raycast (ray : Ray) (near far : float) (ms : list Matrix4)
  : list Intersection :=
  raycastFrom ray near far 0 ms.

(** [intersects.sort(ascSort)] of [Raycaster.intersectObject]: a stable
    sort by ascending distance ([a.distance - b.distance] is positive
    exactly when [b.distance < a.distance]). *)
Fixpoint insertByDistance (h : Intersection) (l : list Intersection)
  : list Intersection :=
  match l with
  | [] => [h]
  | h' :: r =>
      if distance h' <? distance h then h' :: insertByDistance h r
      else h :: l
  end.

Definition sortByDistance (l : list Intersection) : list Intersection :=
  fold_right insertByDistance [] l.

Definition intersectObject (ray : Ray) (near far : float)
    (ms : list Matrix4) : list Intersection :=
  sortByDistance (raycast ray near far ms).

(** What the [mousemove] listener shows. *)
Inductive Tooltip : Type :=
| AirportTip (a : Airport)
| FlightTip (id : nat) (f : Flight)
| NoTip.

(** The stars met by the ray, within the window.  The listener only
    asks whether there is one and which star comes first. *)
Definition starHits (ray : Ray) (near far : float) (l : list Airport)
  : list (float * Airport) :=
  flat_map (fun a =>
    match starDistance ray a with
    | Some d => if (d <? near) || (far <? d) then [] else [(d, a)]
    | None => []
    end) l.

Fixpoint insertStar (h : float * Airport) (l : list (float * Airport))
  : list (float * Airport) :=
  match l with
  | [] => [h]
  | h' :: r => if fst h' <? fst h then h' :: insertStar h r else h :: l
  end.

Definition mousemove (ray : Ray) (near far : float) (s : State) : Tooltip :=
  match fold_right insertStar [] (starHits ray near far (airportStars s)) with
  | (_, a) :: _ => AirportTip a
  | [] =>
      match intersectObject ray near far (instanceMatrix s) with
      | h :: _ =>
          match nth_error (flights s) (instanceId h) with
          | Some f => FlightTip (instanceId h) f
          | None => NoTip
          end
      | [] => NoTip
      end
  end.

End Picking.

(** A distance inside the window of the raycaster. *)
Definition inWindow (near far d : float) : bool :=
  negb ((d <? near) || (far <? d)).

End Engine.

(* ================================================================== *)
(** * A host for concrete runs *)
(* ================================================================== *)

(** ECMAScript fixes [Math.sin], [Math.cos] and [Math.atan2] at special
    arguments ([sin 0 = 0], [cos 0 = 1], [atan2(0, x > 0) = 0], NaN for
    non-finite arguments) and leaves them implementation-approximated
    elsewhere.  This host evaluates their power series in binary64.  It
    serves to run the script on concrete rows; the general theorems
    quantify over every [MathLib]. *)
Module HostMath.
Import JS Three.
Local Open Scope float_scope.

Definition two_pi : float := 2 * Math_PI.
Definition half_pi : float := Math_PI / 2.

(** [1 - r2/(k(k+1)) (1 - r2/((k+2)(k+3)) (1 - ...))], [n] factors. *)
Fixpoint series (r2 k : float) (n : nat) : float :=
  match n with
  | O => 1
  | S n' => 1 - r2 / (k * (k + 1)) * series r2 (k + 2) n'
  end.

(** The argument brought into [[-PI, PI]]. *)
Definition reduce (a : float) : float :=
  match Math_floor (a / two_pi + 0.5) with
  | FlInt k => a - float_of_Z k * two_pi
  | _ => nan
  end.

Definition sin (a : float) : float :=
  let r := reduce a in r * series (r * r) 2 16.

Definition cos (a : float) : float :=
  let r := reduce a in series (r * r) 1 16.

(** [1/k - z2 (1/(k+2) - z2 (...))], the series of [atan z / z]. *)
Fixpoint aseries (z2 k : float) (n : nat) : float :=
  match n with
  | O => 1 / k
  | S n' => 1 / k - z2 * aseries z2 (k + 2) n'
  end.

Definition halve (a : float) : float := a / (1 + sqrt (1 + a * a)).

(** [atan] on [[-1, 1]]: three halvings of the angle, then the series. *)
Definition atan_unit (a : float) : float :=
  let h := halve (halve (halve a)) in
  8 * (h * aseries (h * h) 1 14).

Definition atan (a : float) : float :=
  if abs a <=? 1 then atan_unit a
  else if 0 <? a then half_pi - atan_unit (1 / a)
  else if a <? 0 then - half_pi - atan_unit (1 / a)
  else nan.

Definition atan2 (b a : float) : float :=
  if 0 <? a then atan (b / a)
  else if a <? 0 then
    (if b <? 0 then atan (b / a) - Math_PI else atan (b / a) + Math_PI)
  else if a =? 0 then
    (if 0 <? b then half_pi else if b <? 0 then - half_pi else b)
  else nan.

Definition host : MathLib :=
  {| Math_sin := sin; Math_cos := cos; Math_atan2 := atan2 |}.

End HostMath.

(* ================================================================== *)
(** * The vector code in exact arithmetic *)
(* ================================================================== *)

(** The same vector code over the real numbers: what the script
    computes when no operation rounds.  Division by zero does not occur
    in it for a positive number of segments. *)
Module Exact.
Import Reals Three.
Local Open Scope R_scope.

Definition real_or (a b : R) : R :=
  if Req_dec_T a 0 then b else a.

Definition real_scalar : Scalar R := {|
  s_add := Rplus;
  s_sub := Rminus;
  s_mul := Rmult;
  s_div := Rdiv;
  s_sqrt := R_sqrt.sqrt;
  s_sin := Rtrigo_def.sin;
  s_cos := Rtrigo_def.cos;
  s_of_Z := IZR;
  s_decimal := fun m e => IZR m * powerRZ 10 e;
  s_PI := PI;
  s_or := real_or
|}.

(** A geographic point and its projection at the altitude of the path. *)
Definition projection (lat lon : R) : Vector3 R :=
  @latLongToVector3 R real_scalar lat lon (@altitude R real_scalar).

Definition path (originLat originLon destLat destLon : R) (segments : nat)
  : list (Vector3 R) :=
  @calculateCurvePoints R real_scalar originLat originLon destLat destLon segments.

End Exact.

(* ================================================================== *)
(** * Sample data for concrete runs *)
(* ================================================================== *)

Module Samples.
Import JS Three Engine.
Local Open Scope float_scope.

(** Two rows of a dataset: Moscow to Saint Petersburg at 10:00, and a
    row whose origin and destination are the same airport. *)
Definition svo_led : FlightData :=
  {| origin_lat := 55.75; origin_lon := 37.62;
     destination_lat := 59.94; destination_lon := 30.31;
     departure_time := Str "10:00" |}.

Definition round_trip : FlightData :=
  {| origin_lat := 55.75; origin_lon := 37.62;
     destination_lat := 55.75; destination_lon := 37.62;
     departure_time := Str "10:00" |}.

Definition one_flight : State := loadFlightData HostMath.host [svo_led].
Definition same_airport : State := loadFlightData HostMath.host [round_trip].

(** The positions of a range input with [min = 1], [max = 10] and the
    default step. *)
Definition sliderValues : list string :=
  ["1"; "2"; "3"; "4"; "5"; "6"; "7"; "8"; "9"; "10"]%string.

(** The flight when a call returns, for concrete runs. *)
Definition returned (c : completion Flight) (otherwise : Flight) : Flight :=
  match c with
  | Normal f => f
  | _ => otherwise
  end.

(** The flight from Moscow to Saint Petersburg: as the constructor
    makes it; after a tick at simulated second 36288, with 21 segments
    drawn; after four ticks, the third a step back in time. *)
Definition fresh : Flight := Flight_new HostMath.host svo_led.

Definition drawn_21 : Flight := returned (updates [36288] fresh) fresh.

Definition back_and_forth : Flight :=
  returned (updates [36028.8; 36288; 36100; 36656.64] fresh) fresh.


(** The state when a run returns, for concrete runs. *)
Definition returnedState (c : completion State) (otherwise : State) : State :=
  match c with
  | Normal s => s
  | _ => otherwise
  end.

(** The flight from Moscow to Saint Petersburg after its arrival: the
    last frame in which it was en route wrote its slot at progress
    0.9968; the frame at 130 seconds comes after the end of the flight. *)
Definition landed : State :=
  returnedState (run [Frame 125.01; Frame 126; Frame 127.3; Frame 130]
                     one_flight) one_flight.

(** A ray, given by what it meets: the bounding sphere of every written
    slot at distance 5, and no airport star. *)
Definition meets_written_slots (_ : unit) (m : Matrix4) : option float :=
  match m with
  | PlaneMatrix _ _ => Some 5
  | Unwritten => None
  end.



(** The two-digit form of a number below 100, and the string [HH:MM]. *)
Definition two_digits (n : nat) : string :=
  String (ascii_of_nat (48 + n / 10))
    (String (ascii_of_nat (48 + n mod 10)) EmptyString).

Definition clock_string (h m : nat) : string :=
  (two_digits h ++ ":" ++ two_digits m)%string.

Definition parses_to_seconds (h m : nat) : bool :=
  PrimFloat.Leibniz.eqb (parseTime (Str (clock_string h m)))
                        (float_of_Z (Z.of_nat ((h * 60 + m) * 60))).

End Samples.

(* ================================================================== *)
(** * Airports, slots and buffers: what the runs keep *)
(* ================================================================== *)

Module Ledger.
Import JS Three Engine.
Local Open Scope float_scope.

(** ** The airports *)

(** The planes on the ground, over all airports. *)
Definition totalPlanes (l : list Airport) : Z :=
  fold_right (fun a n => (planes a + n)%Z) 0%Z l.

(** The flights whose flag is set. *)
Definition countFlag (flag : Flight -> bool) (fs : list Flight) : Z :=
  Z.of_nat (List.length (filter flag fs)).

(** Both lookups of the occupancy code find an airport. *)
Definition endpointsKnown (airports : list Airport) (f : Flight) : bool :=
  hasAirport (origin_lat (data f)) (origin_lon (data f)) airports
  && hasAirport (destination_lat (data f)) (destination_lon (data f)) airports.

(** The balance of the ledger: planes on the ground, plus departures,
    minus arrivals. *)
Definition balance (airports : list Airport) (fs : list Flight) : Z :=
  (totalPlanes airports + countFlag departed fs - countFlag arrived fs)%Z.

(** The invariant of the ledger. *)
Definition ledgerOK (s : State) : Prop :=
  forallb (endpointsKnown (airportStars s)) (flights s) = true
  /\ balance (airportStars s) (flights s) = Z.of_nat (List.length (flights s))
  /\ List.length (instanceMatrix s) = List.length (flights s).

(** The template strings of two pairs of coordinates are equal. *)
Definition sameKey (ka ko la lo : float) : bool :=
  sameNumberString ka la && sameNumberString ko lo.

(** The planes that the flags of the flights place at the coordinates
    [(ka, ko)]: those that start there and have not departed, and those
    that end there and have arrived. *)
Definition originates (ka ko : float) (f : Flight) : bool :=
  sameKey ka ko (origin_lat (data f)) (origin_lon (data f)).

Definition waiting (ka ko : float) (f : Flight) : bool :=
  sameKey ka ko (origin_lat (data f)) (origin_lon (data f))
  && negb (departed f).

Definition landedAt (ka ko : float) (f : Flight) : bool :=
  sameKey ka ko (destination_lat (data f)) (destination_lon (data f))
  && arrived f.

Definition score (ka ko : float) (f : Flight) : Z :=
  ((if waiting ka ko f then 1 else 0) + (if landedAt ka ko f then 1 else 0))%Z.

Definition onGround (ka ko : float) (fs : list Flight) : Z :=
  (countFlag (waiting ka ko) fs + countFlag (landedAt ka ko) fs)%Z.

(** No two airports of the list have the same template string. *)
Fixpoint distinctKeys (l : list Airport) : bool :=
  match l with
  | [] => true
  | a :: r => negb (hasAirport (lat a) (lon a) r) && distinctKeys r
  end.

(** The count of each airport of [l] is what [D] gives at its
    coordinates. *)
Definition counts (D : float -> float -> Z) (l : list Airport) : Prop :=
  Forall (fun a => planes a = D (lat a) (lon a)) l.

(** The table [D] of the airports [l], complete: coordinates that are
    not in the list count no plane. *)
Definition table (D : float -> float -> Z) (l : list Airport) : Prop :=
  distinctKeys l = true
  /\ counts D l
  /\ forall ka ko, hasAirport ka ko l = false -> D ka ko = 0%Z.

(** The invariant of the counts. *)
Definition countsOK (s : State) : Prop :=
  distinctKeys (airportStars s) = true
  /\ counts (fun ka ko => onGround ka ko (flights s)) (airportStars s).

(** ** The slots and the two passes *)

(** A slot that is either as [InstancedMesh] created it or holds the
    matrix of the flight [d] at a progress inside the flight. *)
Definition ownSlot (d : FlightData) (m : Matrix4) : Prop :=
  m = Unwritten \/ exists t, m = PlaneMatrix d t /\ enRoute t = true.

(** What [updateInstancedPlanes] reads of a flight. *)
Definition occupancyView (f : Flight)
  : FlightData * float * float * bool * bool :=
  (data f, startTime f, duration f, departed f, arrived f).

(** What the occupancy code shares between two states, whatever the
    paths of their flights. *)
Definition sameOccupancy (s s' : State) : Prop :=
  airportStars s = airportStars s'
  /\ instanceMatrix s = instanceMatrix s'
  /\ map occupancyView (flights s) = map occupancyView (flights s').

(** ** The position buffer *)

(** The [k]-th of the six floats of segment [i] of a path: the start
    point, then the end point. *)
Definition segmentValue (pts : list (Vector3 float)) (i k : nat)
  : option float :=
  match nth_error pts i, nth_error pts (S i) with
  | Some p, Some q => nth_error [x p; y p; z p; x q; y q; z q] k
  | _, _ => None
  end.

(** Segment [i] of the position buffer holds the two end points of
    segment [i] of the path, as binary32 values. *)
Definition drawn (f : Flight) (i : nat) : Prop :=
  forall k, (k < 6)%nat ->
    nth_error (positions f) (6 * i + k)
    = option_map Math_fround (segmentValue (curvePoints f) i k).

(** Segment [i] of the position buffer is as the constructor left it:
    a segment of no length at the centre of the globe. *)
Definition blank (f : Flight) (i : nat) : Prop :=
  forall k, (k < 6)%nat -> nth_error (positions f) (6 * i + k) = Some 0.

(** The segments up to [dynamicSegmentIndex], once it has left 0. *)
Definition revealed (f : Flight) (i : nat) : bool :=
  (0 <? dynamicSegmentIndex f)%Z && (Z.of_nat i <=? dynamicSegmentIndex f)%Z.

Definition prefixDrawn (f : Flight) : Prop :=
  forall i, (S i < List.length (curvePoints f))%nat ->
    if revealed f i then drawn f i else blank f i.

(** What the [k]-th float of segment [i] of the buffer should hold. *)
Definition expected (f : Flight) (i k : nat) : option float :=
  if revealed f i
  then option_map Math_fround (segmentValue (curvePoints f) i k)
  else Some 0.

End Ledger.

(** The visibility of the lines: [createFlightPaths], the two buttons of
    [setupToggleButtons], and the lines of [Flight.update] that put the
    dynamic path into the scene. *)
Module Lines.
Import JS Three Engine.
Local Open Scope float_scope.

(** The [visible] flags of the two lines of a flight: [flight.path], the
    complete line, and [flight.dynamicPath]. *)
Record Line : Type := {
  pathVisible : bool;
  dynamicPathVisible : bool
}.

(** The two variables of [setupToggleButtons] and the lines of the
    flights, in the order of [flights]. *)
Record Panel : Type := {
  areCompleteLinesVisible : bool;
  areDynamicLinesVisible : bool;
  lines : list Line
}.

(** [createFlightPaths] hides every complete line; a dynamic line is
    created visible, as every [Object3D]; the buttons start at "complete
    lines hidden, dynamic lines shown". *)
Definition initialPanel (fs : list Flight) : Panel :=
  {| areCompleteLinesVisible := false;
     areDynamicLinesVisible := true;
     lines := map (fun _ => {| pathVisible := false;
                               dynamicPathVisible := true |}) fs |}.

(** The click on "Toggle Complete Lines". *)
Definition toggleCompleteLines (p : Panel) : Panel :=
  let v := negb (areCompleteLinesVisible p) in
  {| areCompleteLinesVisible := v;
     areDynamicLinesVisible := areDynamicLinesVisible p;
     lines := map (fun l => {| pathVisible := v;
                               dynamicPathVisible := dynamicPathVisible l |})
                  (lines p) |}.

(** The click on "Toggle Dynamic Lines". *)
Definition toggleDynamicLines (p : Panel) : Panel :=
  let v := negb (areDynamicLinesVisible p) in
  {| areCompleteLinesVisible := areCompleteLinesVisible p;
     areDynamicLinesVisible := v;
     lines := map (fun l => {| pathVisible := pathVisible l;
                               dynamicPathVisible := v |})
                  (lines p) |}.

(** [Flight.update] on the line of its flight: in the call that adds the
    dynamic path to the scene, [this.dynamicPath.visible = true]. *)
Definition updateLine (currentTime : float) (f : Flight) (l : Line) : Line :=
  if (startTime f <=? currentTime) && negb (dynamicPathAdded f)
  then {| pathVisible := pathVisible l; dynamicPathVisible := true |}
  else l.

Fixpoint updateLines (currentTime : float) (fs : list Flight)
    (ls : list Line) : list Line :=
  match fs, ls with
  | f :: fs', l :: ls' =>
      updateLine currentTime f l :: updateLines currentTime fs' ls'
  | _, _ => ls
  end.

(** What the user does, and the frames. *)
Inductive action : Type :=
| Engine (e : event)
| ToggleCompleteLines
| ToggleDynamicLines.

(** One action on the state of the engine and the panel.  A frame runs
    [animate]; its calls of [update] find the flights as
    [updateInstancedPlanes] leaves them. *)
Definition act (a : action) (sp : State * Panel) : completion (State * Panel) :=
  let '(s, p) := sp in
  match a with
  | Engine (Frame elapsed) =>
      bind (animate elapsed s) (fun s' =>
      Normal (s', {| areCompleteLinesVisible := areCompleteLinesVisible p;
                     areDynamicLinesVisible := areDynamicLinesVisible p;
                     lines := updateLines (simTime elapsed s)
                                (flights (updateInstancedPlanes
                                            (simTime elapsed s) s))
                                (lines p) |}))
  | Engine (SpeedInput v) => Normal (speedSliderInput v s, p)
  | ToggleCompleteLines => Normal (s, toggleCompleteLines p)
  | ToggleDynamicLines => Normal (s, toggleDynamicLines p)
  end.

Fixpoint acts (l : list action) (sp : State * Panel)
  : completion (State * Panel) :=
  match l with
  | [] => Normal sp
  | a :: l' => bind (act a sp) (acts l')
  end.

(** The clicks on "Toggle Complete Lines" among the actions. *)
Definition completeClicks (l : list action) : nat :=
  List.length (filter (fun a => match a with
                                | ToggleCompleteLines => true
                                | _ => false
                                end) l).

End Lines.

(* ================================================================== *)
(** * The rotation of the Earth *)
(* ================================================================== *)

(** The block of [animate] that rotates the Earth and moves the sun.
    [isUserInteracting] is [false] and no statement of the script
    assigns it, so the block runs in every frame. *)
Module Globe.
Import JS Three.
Local Open Scope float_scope.

Record Earth : Type := {
  rotationY : float;
  rotationVelocity : float
}.

(** [earth.rotation.y] of a new [Mesh], and [let rotationVelocity = 0]. *)
Definition initialEarth : Earth :=
  {| rotationY := 0; rotationVelocity := 0 |}.

(** One frame; [delta] is what [clock.getDelta()] returns. *)
Definition rotateEarth (delta : float) (e : Earth) : Earth :=
  let y := rotationY e + rotationVelocity e * delta in
  let v := rotationVelocity e * 0.95 in
  {| rotationY := y;
     rotationVelocity := if abs v <? 0.00001 then 0 else v |}.

Definition rotations (deltas : list float) (e : Earth) : Earth :=
  fold_left (fun e' d => rotateEarth d e') deltas e.

(** [sunLight.position.set(Math.cos(sunAngle) * 10, 0,
    Math.sin(sunAngle) * 10)]. *)
Definition sunPosition (M : MathLib) (e : Earth) : Vector3 float :=
  mkVector3 (Math_cos M (rotationY e) * 10) 0 (Math_sin M (rotationY e) * 10).

End Globe.

(** More sample data: a ray that meets every airport star at distance
    3, and a panel whose dynamic lines were switched off. *)
Module MoreSamples.
Import JS Three Engine Samples Lines.
Local Open Scope float_scope.

Definition meets_every_star (_ : unit) (_ : Airport) : option float := Some 3.

Definition dynamic_lines_off : Panel :=
  toggleDynamicLines (initialPanel (flights one_flight)).

Definition no_colon : FlightData :=
  {| origin_lat := 55.75; origin_lon := 37.62;
     destination_lat := 59.94; destination_lon := 30.31;
     departure_time := Str "1000" |}.

End MoreSamples.

Unset Implicit Arguments.

(* ================================================================== *)
(** * Facts about binary64 *)
(* ================================================================== *)

Module FloatFacts.
Local Open Scope float_scope.

Lemma Prim2SF_nan : Prim2SF nan = S754_nan.
Proof. reflexivity. Qed.

Lemma is_nan_spec a : PrimFloat.is_nan a = false -> Prim2SF a <> S754_nan.
Proof.
  unfold PrimFloat.is_nan. rewrite FloatAxioms.eqb_spec. intros H E.
  rewrite E in H. discriminate.
Qed.

Lemma is_zero_spec d :
  PrimFloat.is_zero d = true -> exists s, Prim2SF d = S754_zero s.
Proof.
  unfold PrimFloat.is_zero. rewrite FloatAxioms.eqb_spec.
  change (Prim2SF 0) with (S754_zero false).
  unfold SFeqb, SFcompare.
  destruct (Prim2SF d) as [s|s| |s m e]; try discriminate.
  - eauto.
  - destruct s; discriminate.
  - destruct s; discriminate.
Qed.

(** NaN is absorbing. *)
Lemma mul_nan_r a : a * nan = nan.
Proof.
  apply Prim2SF_inj. rewrite mul_spec, Prim2SF_nan.
  destruct (Prim2SF a); reflexivity.
Qed.

Lemma mul_nan_l a : nan * a = nan.
Proof.
  apply Prim2SF_inj. rewrite mul_spec, Prim2SF_nan. reflexivity.
Qed.

Lemma add_nan_r a : a + nan = nan.
Proof.
  apply Prim2SF_inj. rewrite add_spec, Prim2SF_nan.
  destruct (Prim2SF a); reflexivity.
Qed.

Lemma sub_nan_r a : a - nan = nan.
Proof.
  apply Prim2SF_inj. rewrite sub_spec, Prim2SF_nan.
  destruct (Prim2SF a); reflexivity.
Qed.

Lemma div_nan_l a : nan / a = nan.
Proof.
  apply Prim2SF_inj. rewrite div_spec, Prim2SF_nan. reflexivity.
Qed.

(** A quotient by zero is NaN or infinite: it is never in [[0, 1]]. *)
Lemma div_zero_outside a d :
  PrimFloat.is_zero d = true -> (0 <=? a / d) && (a / d <=? 1) = false.
Proof.
  intros [s Hd]%is_zero_spec.
  rewrite !leb_spec, div_spec, Hd.
  change (Prim2SF 0) with (S754_zero false).
  change (Prim2SF 1) with (S754_finite false 4503599627370496 (-52)).
  destruct (Prim2SF a) as [sa|sa| |sa ma ea]; cbn; try reflexivity;
    destruct sa, s; reflexivity.
Qed.

(** No Number is both below 0.01 and above 0.99. *)
Lemma below_001_not_above_099 t : (t <? 0.01) = true -> (0.99 <? t) = false.
Proof.
  rewrite !ltb_spec.
  set (lo := Prim2SF 0.01). set (hi := Prim2SF 0.99).
  vm_compute in lo, hi. subst lo hi.
  unfold SFltb, SFcompare.
  destruct (Prim2SF t) as [s|s| |s m e]; try reflexivity;
    try (destruct s; reflexivity || discriminate).
  destruct s; try reflexivity.
  destruct (Z.compare_spec e (-59)), (Z.compare_spec (-53) e);
    try reflexivity; try discriminate; try lia.
Qed.






End FloatFacts.

(* ================================================================== *)
(** * The departure time of a row *)
(* ================================================================== *)

Module ParseTime.
Import JS Three Engine Samples.
Local Open Scope float_scope.

(** A value that is not a string, or the empty string, gives 0. *)
Lemma parseTime_not_a_string v :
  (forall s, v <> Str s) -> parseTime v = 0.
Proof. intros H. destruct v; try reflexivity. now destruct (H s). Qed.

Lemma parseTime_empty : parseTime (Str "") = 0.
Proof. reflexivity. Qed.

(** A well-formed [HH:MM] gives the seconds from midnight. *)
Lemma parseTime_well_formed h m :
  (h < 24)%nat -> (m < 60)%nat ->
  parseTime (Str (clock_string h m))
  = float_of_Z (Z.of_nat ((h * 60 + m) * 60)).
Proof.
  intros Hh Hm.
  assert (All : forallb (fun h' => forallb (parses_to_seconds h') (seq 0 60))
                        (seq 0 24) = true) by (vm_compute; reflexivity).
  rewrite forallb_forall in All.
  specialize (All h). rewrite forallb_forall in All.
  apply FloatAxioms.Leibniz.eqb_spec. apply All; apply in_seq; lia.
Qed.

(** A string without a colon has no minutes: whatever its hours, the
    result is NaN. *)
Lemma split_from_no_separator sep s : forall cur,
  ~ In sep s -> split_from sep cur s = [rev cur ++ s].
Proof.
  induction s as [|c s IH]; intros cur No; simpl.
  - now rewrite app_nil_r.
  - destruct (Ascii.eqb c sep) eqn:E.
    + apply Ascii.eqb_eq in E. subst. destruct No. now left.
    + rewrite IH by (intros H; apply No; now right).
      simpl. now rewrite <- app_assoc.
Qed.

Lemma trim_start_In c s : In c (trim_start s) -> In c s.
Proof.
  induction s as [|a s IH]; simpl; [tauto|].
  destruct (is_white_space a); simpl; intuition.
Qed.

Lemma trim_In c s : In c (trim s) -> In c s.
Proof.
  unfold trim. intros H.
  apply in_rev in H. apply trim_start_In in H.
  apply in_rev in H. now apply trim_start_In in H.
Qed.

Lemma parseTime_without_colon s :
  s <> EmptyString ->
  ~ In ":"%char (list_ascii_of_string s) ->
  parseTime (Str s) = nan.
Proof.
  intros Ne No. unfold parseTime.
  assert (T : truthy (Str s) = true)
    by (destruct s; [now destruct Ne | reflexivity]).
  rewrite T. simpl negb. cbv iota.
  unfold split. rewrite split_from_no_separator
    by (intros H; apply No; now apply trim_In).
  simpl. rewrite FloatFacts.add_nan_r. apply FloatFacts.mul_nan_l.
Qed.

(** A flight that starts at NaN is never en route. *)
Lemma NaN_start_never_en_route ct f :
  startTime f = nan -> enRoute (progress ct f) = false.
Proof.
  intros E. unfold enRoute, progress. rewrite E.
  rewrite FloatFacts.sub_nan_r, FloatFacts.div_nan_l. reflexivity.
Qed.

(** The loader makes no flight of a row without a departure time. *)
Lemma loadFlightData_skips_missing M d :
  truthy (departure_time d) = false -> flights (loadFlightData M [d]) = [].
Proof. intros H. unfold loadFlightData. simpl. now rewrite H. Qed.

(** C6: the departure time of a row.  A string that is not of the form
    [HH:MM] is not caught by the guard of [parseTime]: it is split and
    converted, and the result is NaN, not the 0 that the guard's comment
    announces.  The flight of such a row has NaN as its start time. *)
Theorem C6_malformed_string_parses_to_NaN :
  parseTime (Str "12-30") = nan
  /\ parseTime (Str "noon") = nan
  /\ parseTime (Str "12:3O") = nan
  /\ startTime (Flight_new HostMath.host
       {| origin_lat := 55.75; origin_lon := 37.62;
          destination_lat := 59.94; destination_lon := 30.31;
          departure_time := Str "12-30" |}) = nan
  /\ parseTime (Num 1230) = 0
  /\ parseTime (Str "12:30") = 45000.
Proof. repeat split; vm_compute; reflexivity. Qed.

End ParseTime.

(* ================================================================== *)
(** * The clock and the speed slider *)
(* ================================================================== *)

Module Clock.
Import JS Three Engine Samples.
Local Open Scope float_scope.

Lemma frameTimes_acceleration es : forall s s',
  TIME_ACCELERATION s = TIME_ACCELERATION s' ->
  frameTimes es s = frameTimes es s'.
Proof.
  induction es as [|[r|v] es IH]; intros s s' E; simpl.
  - reflexivity.
  - unfold simTime. rewrite E. f_equal. now apply IH.
  - now apply IH.
Qed.

Lemma frameTimes_app es : forall es' s,
  frameTimes (es ++ es') s
  = frameTimes es s
    ++ frameTimes es'
         {| flights := flights s; airportStars := airportStars s;
            instanceMatrix := instanceMatrix s;
            TIME_ACCELERATION := accelerationAfter es (TIME_ACCELERATION s) |}.
Proof.
  induction es as [|[r|v] es IH]; intros es' s; simpl.
  - now apply frameTimes_acceleration.
  - f_equal. apply IH.
  - rewrite IH. reflexivity.
Qed.

Lemma accelerationAfter_frames rs a :
  accelerationAfter (map Frame rs) a = a.
Proof. induction rs; simpl; auto. Qed.

Lemma accelerationAfter_app es : forall es' a,
  accelerationAfter (es ++ es') a
  = accelerationAfter es' (accelerationAfter es a).
Proof. induction es as [|[r|v] es IH]; intros; simpl; auto. Qed.

(** A frame leaves the acceleration alone, so the acceleration that a
    run hands to its next frame is [accelerationAfter]. *)
Lemma updateInstancedPlanes_acceleration ct s :
  TIME_ACCELERATION (updateInstancedPlanes ct s) = TIME_ACCELERATION s.
Proof.
  unfold updateInstancedPlanes. destruct (flights s); [reflexivity|].
  destruct (updatePlanes _ _ _ _) as [[? ?] ?]. reflexivity.
Qed.

Lemma run_acceleration es : forall s s',
  run es s = Normal s' ->
  TIME_ACCELERATION s' = accelerationAfter es (TIME_ACCELERATION s).
Proof.
  induction es as [|[r|v] es IH]; intros s s' H; simpl in *.
  - now inversion H.
  - unfold animate in H.
    destruct (updateAll _ _) as [fs| |]; simpl in H; try discriminate.
    apply IH in H. simpl in H.
    now rewrite updateInstancedPlanes_acceleration in H.
  - apply IH in H. exact H.
Qed.

Lemma run_app es : forall es' s,
  run (es ++ es') s = bind (run es s) (run es').
Proof.
  induction es as [|e es IH]; intros es' s; simpl; [reflexivity|].
  destruct (step e s); simpl; auto.
Qed.

(** [frameTimes] lists the simulated times that the frames of a run
    hand to the engine: the frame after a run that returns state [s']
    is animated at [simTime r s']. *)
Lemma frameTimes_of_run es r s s' :
  run es s = Normal s' ->
  frameTimes (es ++ [Frame r]) s = frameTimes es s ++ [simTime r s']
  /\ run (es ++ [Frame r]) s = animate r s'.
Proof.
  intros H. split.
  - rewrite frameTimes_app. simpl. unfold simTime. simpl.
    now rewrite (run_acceleration es s s' H).
  - rewrite run_app, H. simpl. now destruct (animate r s').
Qed.

(** C3, as the script has it: the simulated time of a frame is the whole
    real time elapsed since the clock started, times the acceleration in
    force at that frame.  After the slider is set to [v], a frame at real
    time [r] runs at simulated time [r * (1440 / v)], whatever the
    acceleration was during the events before the change. *)
Theorem C3_simTime_is_elapsed_times_current_factor :
  forall (es : list event) (v : string) (rs : list float) (r : float)
         (s : State),
    frameTimes (es ++ SpeedInput v :: map Frame rs ++ [Frame r]) s
    = frameTimes (es ++ SpeedInput v :: map Frame rs) s
      ++ [r * (1440 / StringToNumber v)].
Proof.
  intros es v rs r s.
  replace (es ++ SpeedInput v :: map Frame rs ++ [Frame r])
    with ((es ++ SpeedInput v :: map Frame rs) ++ [Frame r])
    by (rewrite <- app_assoc; reflexivity).
  rewrite (frameTimes_app (es ++ SpeedInput v :: map Frame rs)).
  f_equal. simpl. unfold simTime. simpl.
  rewrite accelerationAfter_app. simpl.
  now rewrite accelerationAfter_frames.
Qed.

(** C3, as the specification states it, fails: the acceleration is 288 for the
    first 10 seconds and 144 afterwards; at 10.5 seconds the simulated
    time is 10.5 * 144 = 1512, below the 2880 of the frame before, where
    the claim asks for 10 * 288 + 0.5 * 144 = 2952. *)
Lemma C3_change_rescales_elapsed_time :
  TIME_ACCELERATION one_flight = 288
  /\ frameTimes [Frame 10; SpeedInput "10"; Frame 10.5] one_flight
     = [2880; 1512]
  /\ 10 * 288 + (10.5 - 10) * 144 = 2952
  /\ (1512 <? 2952) = true.
Proof. repeat split; vm_compute; reflexivity. Qed.



End Clock.

(* ================================================================== *)
(** * Departure and arrival: the occupancy of the airports *)
(* ================================================================== *)

Module Occupancy.
Import JS Three Engine Samples FloatFacts.
Local Open Scope float_scope.

(** The branch that [updatePlane] takes, read off its conditions. *)
Lemma updatePlane_cases ct f slot airports :
  let t := progress ct f in
  updatePlane ct f slot airports =
    if departureWindow t && negb (departed f) then
      (setDeparted f, PlaneMatrix (data f) t,
       adjustPlanes (origin_lat (data f)) (origin_lon (data f)) (-1) airports)
    else if arrivalWindow t && negb (arrived f) then
      (setArrived f, PlaneMatrix (data f) t,
       adjustPlanes (destination_lat (data f)) (destination_lon (data f)) 1
                    airports)
    else if enRoute t then (f, PlaneMatrix (data f) t, airports)
    else (f, slot, airports).
Proof.
  intros t. unfold updatePlane, departureWindow, arrivalWindow. fold t.
  destruct (enRoute t); simpl; [|reflexivity].
  destruct (t <? 0.01) eqn:Lo; simpl.
  - rewrite (below_001_not_above_099 _ Lo). simpl.
    destruct (departed f); reflexivity.
  - reflexivity.
Qed.

(** A tick keeps the schedule of the flight. *)
Lemma tickPlane_schedule ct p :
  startTime (fst (fst (tickPlane ct p))) = startTime (fst (fst p))
  /\ duration (fst (fst (tickPlane ct p))) = duration (fst (fst p))
  /\ data (fst (fst (tickPlane ct p))) = data (fst (fst p)).
Proof.
  destruct p as [[f slot] airports]. simpl. rewrite updatePlane_cases.
  repeat match goal with |- context [if ?b then _ else _] => destruct b end;
    simpl; auto.
Qed.

Lemma tickPlane_progress ct ct' p :
  progress ct' (fst (fst (tickPlane ct p))) = progress ct' (fst (fst p)).
Proof.
  unfold progress.
  destruct (tickPlane_schedule ct p) as (-> & -> & _). reflexivity.
Qed.

(** The flags after one tick. *)
Lemma tickPlane_departed ct p :
  departed (fst (fst (tickPlane ct p)))
  = departed (fst (fst p)) || departureWindow (progress ct (fst (fst p))).
Proof.
  destruct p as [[f slot] airports]. simpl. rewrite updatePlane_cases.
  destruct (departureWindow _), (departed f) eqn:D; simpl;
    repeat match goal with |- context [if ?b then _ else _] => destruct b end;
    simpl; rewrite ?D; reflexivity.
Qed.

Lemma tickPlane_arrived ct p :
  arrived (fst (fst (tickPlane ct p)))
  = arrived (fst (fst p)) || arrivalWindow (progress ct (fst (fst p))).
Proof.
  destruct p as [[f slot] airports]. simpl. rewrite updatePlane_cases.
  destruct (departureWindow (progress ct f)) eqn:D.
  - assert (A : arrivalWindow (progress ct f) = false).
    { unfold departureWindow, arrivalWindow in *.
      apply andb_true_iff in D as [-> Lo].
      now rewrite (below_001_not_above_099 _ Lo). }
    rewrite A. destruct (departed f), (arrived f) eqn:Ar, (enRoute _);
      simpl; rewrite ?Ar; reflexivity.
  - simpl. destruct (arrivalWindow _), (arrived f) eqn:Ar; simpl;
      try destruct (enRoute _); simpl; rewrite ?Ar; reflexivity.
Qed.

Lemma existsb_pointwise {A} (g h : A -> bool) l :
  (forall a, g a = h a) -> existsb g l = existsb h l.
Proof. intros E. induction l as [|a l IH]; simpl; [|rewrite E, IH]; reflexivity. Qed.

(** The flags at the end of a run of ticks. *)
Lemma planeAfter_departed cts : forall p,
  departed (fst (fst (planeAfter cts p)))
  = departed (fst (fst p))
    || existsb (fun ct => departureWindow (progress ct (fst (fst p)))) cts.
Proof.
  induction cts as [|ct cts IH]; intros p; simpl.
  - now rewrite orb_false_r.
  - unfold planeAfter in *. simpl. rewrite IH, tickPlane_departed.
    rewrite <- orb_assoc. f_equal. f_equal.
    apply existsb_pointwise; intros; now rewrite tickPlane_progress.
Qed.

Lemma planeAfter_arrived cts : forall p,
  arrived (fst (fst (planeAfter cts p)))
  = arrived (fst (fst p))
    || existsb (fun ct => arrivalWindow (progress ct (fst (fst p)))) cts.
Proof.
  induction cts as [|ct cts IH]; intros p; simpl.
  - now rewrite orb_false_r.
  - unfold planeAfter in *. simpl. rewrite IH, tickPlane_arrived.
    rewrite <- orb_assoc. f_equal. f_equal.
    apply existsb_pointwise; intros; now rewrite tickPlane_progress.
Qed.

Lemma planeTrace_head cts q : exists r, planeTrace cts q = q :: r.
Proof. destruct cts; eexists; reflexivity. Qed.

Lemma flips_cons flag p cts q :
  flips flag (p :: planeTrace cts q)
  = ((if negb (flag (fst (fst p))) && flag (fst (fst q)) then 1 else 0)
     + flips flag (planeTrace cts q))%nat.
Proof. destruct (planeTrace_head cts q) as [r ->]. reflexivity. Qed.

Lemma planeAfter_keeps (flag : Flight -> bool) :
  (forall ct p, flag (fst (fst p)) = true ->
                flag (fst (fst (tickPlane ct p))) = true) ->
  forall cts q, flag (fst (fst q)) = true ->
                flag (fst (fst (planeAfter cts q))) = true.
Proof.
  intros Mono. induction cts as [|c cts IH]; intros q Hq; [exact Hq|].
  apply IH. now apply Mono.
Qed.

(** A flag that no tick clears flips as often as it differs between the
    two ends of the trace: once or never. *)
Lemma flips_monotone (flag : Flight -> bool) :
  (forall ct p, flag (fst (fst p)) = true ->
                flag (fst (fst (tickPlane ct p))) = true) ->
  forall cts p,
    flips flag (planeTrace cts p)
    = if negb (flag (fst (fst p))) && flag (fst (fst (planeAfter cts p)))
      then 1%nat else 0%nat.
Proof.
  intros Mono. induction cts as [|ct cts IH]; intros p.
  - simpl. now destruct (flag (fst (fst p))).
  - change (planeTrace (ct :: cts) p)
      with (p :: planeTrace cts (tickPlane ct p)).
    change (planeAfter (ct :: cts) p) with (planeAfter cts (tickPlane ct p)).
    rewrite flips_cons, IH.
    destruct (flag (fst (fst p))) eqn:F0.
    + rewrite (Mono ct p F0). reflexivity.
    + destruct (flag (fst (fst (tickPlane ct p)))) eqn:F1; simpl.
      * now rewrite (planeAfter_keeps flag Mono cts _ F1).
      * reflexivity.
Qed.

Lemma flips_at_most_once (flag : Flight -> bool) :
  (forall ct p, flag (fst (fst p)) = true ->
                flag (fst (fst (tickPlane ct p))) = true) ->
  forall cts p, (flips flag (planeTrace cts p) <= 1)%nat.
Proof.
  intros Mono cts p. rewrite (flips_monotone flag Mono).
  destruct (_ && _); lia.
Qed.

(** What one tick does to the airports. *)
Lemma updatePlane_airports ct f slot airports :
  snd (updatePlane ct f slot airports) =
    if negb (departed f) && departed (fst (fst (updatePlane ct f slot airports)))
    then adjustPlanes (origin_lat (data f)) (origin_lon (data f)) (-1) airports
    else if negb (arrived f)
            && arrived (fst (fst (updatePlane ct f slot airports)))
    then adjustPlanes (destination_lat (data f)) (destination_lon (data f)) 1
                      airports
    else airports.
Proof.
  rewrite updatePlane_cases.
  destruct (departureWindow _), (departed f) eqn:D, (arrivalWindow _),
           (arrived f) eqn:A, (enRoute _); simpl; rewrite ?D, ?A; reflexivity.
Qed.


Lemma updatePlane_flight ct f slot airports :
  fst (fst (updatePlane ct f slot airports)) = flightAfterTick ct f.
Proof.
  unfold flightAfterTick. rewrite !updatePlane_cases.
  repeat match goal with |- context [if ?b then _ else _] => destruct b end;
    reflexivity.
Qed.

Lemma updatePlanes_flights ct fs : forall ms airports,
  fst (fst (updatePlanes ct fs ms airports)) = map (flightAfterTick ct) fs.
Proof.
  induction fs as [|f fs IH]; intros ms airports; simpl; [reflexivity|].
  pose proof (updatePlane_flight ct f (hd Unwritten ms) airports) as Hf.
  destruct (updatePlane ct f (hd Unwritten ms) airports) as [[f' slot'] a'].
  specialize (IH (tl ms) a').
  destruct (updatePlanes ct fs (tl ms) a') as [[fs' ms'] a''].
  simpl in *. now subst.
Qed.

Lemma updateInstancedPlanes_flights ct s :
  flights (updateInstancedPlanes ct s) = map (flightAfterTick ct) (flights s).
Proof.
  unfold updateInstancedPlanes.
  destruct (flights s) as [|f fs] eqn:E; [now rewrite E|].
  pose proof (updatePlanes_flights ct (f :: fs) (instanceMatrix s)
                (airportStars s)) as H.
  destruct (updatePlanes _ _ _ _) as [[fs' ms'] a']. exact H.
Qed.

(** The flights of the whole state after a sequence of ticks are the
    flights of the traces, one by one. *)
Lemma planeAfter_flight cts : forall f slot airports,
  fst (fst (planeAfter cts (f, slot, airports)))
  = fold_left (fun g ct => flightAfterTick ct g) cts f.
Proof.
  unfold planeAfter.
  induction cts as [|ct cts IH]; intros f slot airports; simpl; [reflexivity|].
  pose proof (updatePlane_flight ct f slot airports) as E.
  destruct (updatePlane ct f slot airports) as [[f' slot'] a'].
  simpl in E. subst f'. apply IH.
Qed.

Lemma ticks_flights cts : forall s,
  flights (ticks cts s)
  = map (fun f => fst (fst (planeAfter cts (f, Unwritten, [])))) (flights s).
Proof.
  unfold ticks.
  induction cts as [|ct cts IH]; intros s.
  - simpl. now rewrite map_id.
  - change (fold_left (fun s' c => updateInstancedPlanes c s') (ct :: cts) s)
      with (fold_left (fun s' c => updateInstancedPlanes c s') cts
              (updateInstancedPlanes ct s)).
    rewrite IH, updateInstancedPlanes_flights, map_map.
    apply map_ext. intros f. rewrite !planeAfter_flight. reflexivity.
Qed.

(** C1, as the script has it: along any sequence of ticks the
    [departed] flag and the [arrived] flag of a flight each go from false
    to true at most once, and an airport count changes only in a tick in
    which the flag goes up (the origin loses one plane with [departed],
    the destination gains one with [arrived]).  The flag goes up in the
    first tick whose progress lies in the window of the transition
    ([0 <= t < 0.01] for the departure, [0.99 < t <= 1] for the arrival);
    when no tick of the sequence falls into the window, the transition
    does not happen. *)
Theorem C1_each_transition_at_most_once :
  forall (cts : list float) (f : Flight) (slot : Matrix4)
         (airports : list Airport),
    (flips departed (planeTrace cts (f, slot, airports)) <= 1)%nat
    /\ (flips arrived (planeTrace cts (f, slot, airports)) <= 1)%nat
    /\ departed (fst (fst (planeAfter cts (f, slot, airports))))
       = departed f
         || existsb (fun ct => departureWindow (progress ct f)) cts
    /\ arrived (fst (fst (planeAfter cts (f, slot, airports))))
       = arrived f
         || existsb (fun ct => arrivalWindow (progress ct f)) cts
    /\ (forall ct,
          snd (updatePlane ct f slot airports) =
          if negb (departed f)
             && departed (fst (fst (updatePlane ct f slot airports)))
          then adjustPlanes (origin_lat (data f)) (origin_lon (data f)) (-1)
                            airports
          else if negb (arrived f)
                  && arrived (fst (fst (updatePlane ct f slot airports)))
          then adjustPlanes (destination_lat (data f))
                            (destination_lon (data f)) 1 airports
          else airports).
Proof.
  intros cts f slot airports. repeat split.
  - apply flips_at_most_once. intros ct p H.
    rewrite tickPlane_departed, H. reflexivity.
  - apply flips_at_most_once. intros ct p H.
    rewrite tickPlane_arrived, H. reflexivity.
  - apply (planeAfter_departed cts (f, slot, airports)).
  - apply (planeAfter_arrived cts (f, slot, airports)).
  - intros ct. apply updatePlane_airports.
Qed.

(** C1, as the specification states it, fails.  The flight leaves at 10:00
    (simulated second 36000) and lasts 664.5 simulated seconds.  Five
    frames at the default acceleration: the first before the departure,
    three during the flight at progress 0.043, 0.433 and 0.988, the last
    after the arrival.  No frame falls into a window, and at the end the
    flight has neither departed nor arrived and the airports hold the
    planes they held at the start. *)
Lemma C1_skipped_frames_fire_nothing :
  map (fun ct => enRoute (progress ct (Flight_new HostMath.host svo_led)))
      (frameTimes [Frame 124.9; Frame 125.1; Frame 126; Frame 127.28;
                   Frame 127.4] one_flight)
  = [false; true; true; true; false]
  /\ exists s',
       run [Frame 124.9; Frame 125.1; Frame 126; Frame 127.28; Frame 127.4]
           one_flight = Normal s'
       /\ map departed (flights s') = [false]
       /\ map arrived (flights s') = [false]
       /\ airportStars s' = airportStars one_flight
       /\ map planes (airportStars s') = [1%Z; 0%Z].
Proof.
  split; [vm_compute; reflexivity|].
  eexists. split; [vm_compute; reflexivity|].
  repeat split; vm_compute; reflexivity.
Qed.

(** C4, as the script has it: a flight of duration 0 is never en route.
    Its progress is a quotient by zero, NaN or infinite, which fails the
    test [t >= 0 && t <= 1]; a tick leaves the flight, its slot and the
    airports as they are. *)
Theorem C4_zero_duration_never_en_route :
  forall (ct : float) (f : Flight) (slot : Matrix4) (airports : list Airport),
    PrimFloat.is_zero (duration f) = true ->
    enRoute (progress ct f) = false
    /\ updatePlane ct f slot airports = (f, slot, airports).
Proof.
  intros ct f slot airports Hz.
  assert (E : enRoute (progress ct f) = false)
    by (unfold enRoute, progress; now apply div_zero_outside).
  split; [exact E|]. unfold updatePlane. now rewrite E.
Qed.

Lemma C4_zero_duration_witness :
  enRoute (progress 36288 (Flight_new HostMath.host round_trip)) = false
  /\ updatePlane 36288 (Flight_new HostMath.host round_trip) Unwritten
       (airportStars same_airport)
     = (Flight_new HostMath.host round_trip, Unwritten,
        airportStars same_airport).
Proof.
  apply C4_zero_duration_never_en_route. vm_compute. reflexivity.
Defined.

(** C4, as the specification states it, fails.  Origin and destination are the same
    airport and the duration is 0.  At simulated second 36288, after the
    start at 36000, the progress is infinite, not 1; at 36000 it is NaN.
    The frame completes, and neither transition has happened: both flags
    are false, the airport holds its plane, the slot was not written. *)
Lemma C4_zero_duration_triggers_nothing :
  duration (Flight_new HostMath.host round_trip) = 0
  /\ startTime (Flight_new HostMath.host round_trip) = 36000
  /\ frameTimes [Frame 126] same_airport = [36288]
  /\ progress 36288 (Flight_new HostMath.host round_trip) = infinity
  /\ progress 36000 (Flight_new HostMath.host round_trip) = nan
  /\ exists s',
       run [Frame 126] same_airport = Normal s'
       /\ map departed (flights s') = [false]
       /\ map arrived (flights s') = [false]
       /\ airportStars s' = airportStars same_airport
       /\ instanceMatrix s' = [Unwritten].
Proof.
  repeat (split; [vm_compute; reflexivity|]).
  eexists. split; [vm_compute; reflexivity|].
  repeat split; vm_compute; reflexivity.
Qed.



End Occupancy.

(* ================================================================== *)
(** * The revealed path: [Flight.update] *)
(* ================================================================== *)

Module Reveal.
Import JS Three Engine Samples.
Local Open Scope float_scope.

Lemma added_fields ct f :
  startTime (added ct f) = startTime f
  /\ duration (added ct f) = duration f
  /\ curvePoints (added ct f) = curvePoints f
  /\ positions (added ct f) = positions f
  /\ dynamicSegmentIndex (added ct f) = dynamicSegmentIndex f.
Proof. unfold added. destruct (_ && _); simpl; auto. Qed.

Lemma targetSegmentIndex_added ct f :
  targetSegmentIndex ct (added ct f) = targetSegmentIndex ct f.
Proof.
  unfold targetSegmentIndex.
  destruct (added_fields ct f) as (-> & -> & -> & _). reflexivity.
Qed.

(** A call of [update] that returns leaves the flight as it was after
    the first [if], or has drawn up to a target above the index. *)
Lemma update_returns ct f f' :
  update ct f = Normal f' ->
  (f' = added ct f /\ updateStores ct f = Normal [])
  \/ exists z ws,
       targetSegmentIndex ct f = FlInt z
       /\ (dynamicSegmentIndex f < z)%Z
       /\ updateStores ct f = Normal ws
       /\ f' = setPath (added ct f) (applyStores (positions f) ws) z.
Proof.
  unfold update, updateStores; cbv zeta.
  destruct (dynamicPathAdded (added ct f) && _); [|intros [= <-]; now left].
  rewrite targetSegmentIndex_added.
  destruct (added_fields ct f) as (_ & _ & Pts & Pos & Idx).
  rewrite Idx, Pts, Pos.
  destruct (floored_gt _ _) eqn:G; [|intros [= <-]; now left].
  destruct (drawLoop _ _ _) as [ws| |] eqn:L; simpl; try discriminate.
  destruct (targetSegmentIndex ct f) as [| |z] eqn:T; try discriminate.
  intros [= <-]. right. exists z, ws. simpl in G.
  apply Z.ltb_lt in G. auto.
Qed.

Lemma update_index_monotone ct f f' :
  update ct f = Normal f' ->
  (dynamicSegmentIndex f <= dynamicSegmentIndex f')%Z.
Proof.
  intros [[-> _]|(z & ws & _ & Lt & _ & ->)]%update_returns.
  - destruct (added_fields ct f) as (_ & _ & _ & _ & ->). lia.
  - simpl. lia.
Qed.

Lemma updates_index_monotone cts : forall f f',
  updates cts f = Normal f' ->
  (dynamicSegmentIndex f <= dynamicSegmentIndex f')%Z.
Proof.
  induction cts as [|ct cts IH]; intros f f' H; simpl in H.
  - inversion H. lia.
  - destruct (update ct f) as [f1| |] eqn:U; simpl in H; try discriminate.
    apply update_index_monotone in U. apply IH in H. lia.
Qed.

(** A tick whose target is not above the index draws nothing. *)
Lemma update_below_index ct f :
  floored_gt (targetSegmentIndex ct f) (dynamicSegmentIndex f) = false ->
  update ct f = Normal (added ct f) /\ updateStores ct f = Normal [].
Proof.
  intros G. unfold update, updateStores; cbv zeta.
  rewrite targetSegmentIndex_added.
  destruct (added_fields ct f) as (_ & _ & _ & _ & ->).
  rewrite G. destruct (_ && _); auto.
Qed.

(** C2: the index of the last drawn segment.  Along any sequence of
    calls of [update] that return, in whatever order their times come,
    [dynamicSegmentIndex] does not decrease; and a call whose target
    segment is not above the index returns, stores nothing into the
    position buffer and leaves the buffer and the index as they are. *)
Theorem C2_revealed_segments_never_decrease :
  (forall (cts : list float) (f f' : Flight),
      updates cts f = Normal f' ->
      (dynamicSegmentIndex f <= dynamicSegmentIndex f')%Z)
  /\ (forall (ct : float) (f : Flight) (z : Z),
      targetSegmentIndex ct f = FlInt z ->
      (z <= dynamicSegmentIndex f)%Z ->
      exists f',
        update ct f = Normal f'
        /\ updateStores ct f = Normal []
        /\ positions f' = positions f
        /\ dynamicSegmentIndex f' = dynamicSegmentIndex f).
Proof.
  split.
  - intros cts f f'. apply updates_index_monotone.
  - intros ct f z T Le.
    destruct (update_below_index ct f) as [U S].
    { rewrite T. simpl. apply Z.ltb_ge. exact Le. }
    destruct (added_fields ct f) as (_ & _ & _ & P & I).
    exists (added ct f). repeat split; auto.
Qed.

(** A run with a step back in time, and the tick of that step, whose
    target is segment 7 when 21 segments are drawn. *)
Lemma C2_revealed_segments_witness :
  (dynamicSegmentIndex fresh <= dynamicSegmentIndex back_and_forth)%Z
  /\ exists f',
       update 36100 drawn_21 = Normal f'
       /\ updateStores 36100 drawn_21 = Normal []
       /\ positions f' = positions drawn_21
       /\ dynamicSegmentIndex f' = dynamicSegmentIndex drawn_21.
Proof.
  split.
  - apply (proj1 C2_revealed_segments_never_decrease
             [36028.8; 36288; 36100; 36656.64]).
    vm_compute. reflexivity.
  - apply (proj2 C2_revealed_segments_never_decrease) with (z := 7%Z).
    + vm_compute. reflexivity.
    + vm_compute. discriminate.
Defined.

(** ** The bounds of the position buffer *)






Lemma store_nat_length a : forall k v,
  List.length (store_nat a k v) = List.length a.
Proof.
  induction a as [|c a IH]; intros [|k] v; simpl; auto.
Qed.

Lemma applyStores_length ws : forall a,
  List.length (applyStores a ws) = List.length a.
Proof.
  unfold applyStores. induction ws as [|w ws IH]; intros a; simpl; auto.
  rewrite IH. unfold Float32Array_set.
  destruct (fst w <? 0)%Z; auto using store_nat_length.
Qed.

Lemma calculateCurvePoints_length {N} {S : Scalar N} a b c d segments :
  List.length (calculateCurvePoints a b c d segments) = (segments + 1)%nat.
Proof.
  unfold calculateCurvePoints. now rewrite length_map, length_seq.
Qed.

Lemma Flight_new_well_formed M d :
  well_formed (Flight_new M d)
  /\ List.length (curvePoints (Flight_new M d)) = 51%nat.
Proof.
  assert (L : List.length (curvePoints (Flight_new M d)) = 51%nat)
    by (unfold Flight_new; cbv zeta; cbn [curvePoints];
        apply calculateCurvePoints_length).
  split; [|exact L]. split.
  - unfold Flight_new; cbv zeta; cbn [dynamicSegmentIndex]. lia.
  - rewrite L. unfold Flight_new; cbv zeta; cbn [positions].
    unfold createDynamicPath.
    now rewrite repeat_length, calculateCurvePoints_length.
Qed.

Lemma update_well_formed ct f f' :
  update ct f = Normal f' -> well_formed f ->
  well_formed f' /\ curvePoints f' = curvePoints f.
Proof.
  unfold well_formed.
  intros [[-> _]|(z & ws & _ & Lt & _ & ->)]%update_returns [I L].
  - now destruct (added_fields ct f) as (_ & _ & -> & -> & ->).
  - simpl. destruct (added_fields ct f) as (_ & _ & -> & _ & _).
    rewrite applyStores_length. repeat split; auto; lia.
Qed.

Lemma updates_well_formed cts : forall f f',
  updates cts f = Normal f' -> well_formed f ->
  well_formed f' /\ curvePoints f' = curvePoints f.
Proof.
  induction cts as [|ct cts IH]; intros f f' H W; simpl in H.
  - inversion H; subst. auto.
  - destruct (update ct f) as [f1| |] eqn:U; simpl in H; try discriminate.
    destruct (update_well_formed _ _ _ U W) as [W1 E1].
    destruct (IH _ _ H W1) as [W' E']. split; congruence.
Qed.





End Reveal.

(* ================================================================== *)
(** * Picking *)
(* ================================================================== *)

Module Picking.
Import JS Three Engine Samples FloatFacts.
Local Open Scope float_scope.

Section Rays.

Variable Ray : Type.
Variable hitDistance : Ray -> Matrix4 -> option float.
Variable starDistance : Ray -> Airport -> option float.







End Rays.



End Picking.

(* ================================================================== *)
(** * The path generator *)
(* ================================================================== *)

Module PathGenerator.
Import Three.

Lemma nth_error_map_seq {A} (g : nat -> A) n i :
  (i < n)%nat -> nth_error (map g (seq 0 n)) i = Some (g i).
Proof.
  intros Hi. rewrite nth_error_map.
  rewrite (nth_error_nth' (seq 0 n) 0%nat) by (now rewrite length_seq).
  now rewrite seq_nth.
Qed.

Lemma calculateCurvePoints_nth {N} {S : Scalar N} a b c d segments i :
  (i <= segments)%nat ->
  nth_error (calculateCurvePoints a b c d segments) i
  = Some (curvePoint (latLongToVector3 a b altitude)
                     (latLongToVector3 c d altitude) segments i).
Proof.
  intros Hi. unfold calculateCurvePoints. apply nth_error_map_seq. lia.
Qed.

(** ** In binary64 *)

Section Binary64.
Import FloatFacts.
Local Open Scope float_scope.

(** With no segment, the only point of the path is (NaN, NaN, NaN),
    whatever the host and the coordinates: its parameter is [0 / 0]. *)
Lemma no_segment_path (M : MathLib) (a b c d : float) :
  @calculateCurvePoints float (float_scalar M) a b c d 0
  = [mkVector3 nan nan nan].
Proof.
  unfold calculateCurvePoints. simpl map. unfold curvePoint.
  change (s_div (s_of_Z (Z.of_nat 0)) (s_of_Z (Z.of_nat 0))) with nan.
  unfold lerpVectors. cbn [s_add s_sub s_mul float_scalar].
  rewrite !mul_nan_r, !add_nan_r.
  unfold normalize, divideScalar, multiplyScalar, length.
  cbn [s_add s_sub s_mul s_div s_sqrt s_or s_of_Z float_scalar x y z].
  change (float_or (sqrt (nan * nan + nan * nan + nan * nan))
                   (JS.float_of_Z 1)) with 1.
  change (JS.float_of_Z 1 / 1) with 1.
  rewrite !mul_nan_l. reflexivity.
Qed.

End Binary64.

(** ** In exact arithmetic *)

Section ExactArithmetic.
Import Reals Lra Exact.
Local Open Scope R_scope.

Lemma altitude_value : @altitude R real_scalar = 105 / 100.
Proof. unfold altitude. simpl. field. Qed.

Lemma spherical_length (a phi theta : R) :
  0 <= a ->
  @length R real_scalar (@setFromSphericalCoords R real_scalar a phi theta) = a.
Proof.
  intros Ha. unfold length, setFromSphericalCoords. simpl.
  replace (sin phi * a * sin theta * (sin phi * a * sin theta)
           + cos phi * a * (cos phi * a)
           + sin phi * a * cos theta * (sin phi * a * cos theta))
    with ((a * a) * ((sin phi)² * ((sin theta)² + (cos theta)²) + (cos phi)²))
    by (unfold Rsqr; ring).
  rewrite !sin2_cos2, Rmult_1_r, sin2_cos2, Rmult_1_r.
  now apply sqrt_square.
Qed.

(** A point at the altitude of the path is left where it is by
    [normalize()] followed by [multiplyScalar(1.05)]. *)
Lemma renormalized lat lon :
  @multiplyScalar R real_scalar
    (@normalize R real_scalar (projection lat lon)) (@altitude R real_scalar)
  = projection lat lon.
Proof.
  unfold normalize, projection, latLongToVector3.
  rewrite spherical_length by (rewrite altitude_value; lra).
  cbn [s_or s_of_Z real_scalar]. unfold real_or.
  destruct (Req_dec_T _ _) as [Z|NZ];
    [rewrite altitude_value in Z; lra|].
  unfold divideScalar, multiplyScalar, setFromSphericalCoords.
  cbn [s_mul s_div s_of_Z real_scalar x y z].
  f_equal; field; exact NZ.
Qed.

Lemma lerp_at_0 (v w : Vector3 R) :
  @lerpVectors R real_scalar v w 0 = v.
Proof.
  destruct v, w. unfold lerpVectors. simpl. f_equal; ring.
Qed.

Lemma lerp_at_1 (v w : Vector3 R) :
  @lerpVectors R real_scalar v w 1 = w.
Proof.
  destruct v, w. unfold lerpVectors. simpl. f_equal; ring.
Qed.

(** C5, as the script has it: for every origin, every destination and
    every number of segments [S], the path has [S + 1] points, in
    binary64 on every host as in exact arithmetic; and for [S >= 1], in
    exact arithmetic, its first point is the projection of the origin and
    its last point the projection of the destination, both at the
    altitude 1.05. *)
Theorem C5_path_length_and_endpoints :
  (forall (M : MathLib) (a b c d : float) (segments : nat),
      List.length (@calculateCurvePoints float (float_scalar M) a b c d
                                         segments)
      = (segments + 1)%nat)
  /\ (forall (originLat originLon destLat destLon : R) (segments : nat),
      List.length (path originLat originLon destLat destLon segments)
      = (segments + 1)%nat)
  /\ (forall (originLat originLon destLat destLon : R) (segments : nat),
      (1 <= segments)%nat ->
      nth_error (path originLat originLon destLat destLon segments) 0
      = Some (projection originLat originLon)
      /\ nth_error (path originLat originLon destLat destLon segments)
                   segments
         = Some (projection destLat destLon)).
Proof.
  split; [|split].
  - intros. apply Reveal.calculateCurvePoints_length.
  - intros. apply Reveal.calculateCurvePoints_length.
  - intros a b c d segments Pos.
    assert (NZ : IZR (Z.of_nat segments) <> 0) by (apply not_0_IZR; lia).
    split.
    + unfold path. rewrite calculateCurvePoints_nth by lia. f_equal.
      unfold curvePoint. cbn [s_div s_of_Z real_scalar].
      replace (IZR (Z.of_nat 0) / IZR (Z.of_nat segments)) with 0
        by (simpl; field; exact NZ).
      rewrite lerp_at_0. apply renormalized.
    + unfold path. rewrite calculateCurvePoints_nth by lia. f_equal.
      unfold curvePoint. cbn [s_div s_of_Z real_scalar].
      replace (IZR (Z.of_nat segments) / IZR (Z.of_nat segments)) with 1
        by (field; exact NZ).
      rewrite lerp_at_1. apply renormalized.
Qed.

(** The 50 segments of a flight, from Moscow to Saint Petersburg. *)
Lemma C5_path_witness :
  nth_error (path 55.75 37.62 59.94 30.31 50) 0
  = Some (projection 55.75 37.62)
  /\ nth_error (path 55.75 37.62 59.94 30.31 50) 50
     = Some (projection 59.94 30.31).
Proof.
  apply (proj2 (proj2 C5_path_length_and_endpoints)
           55.75 37.62 59.94 30.31 50%nat).
  lia.
Defined.

End ExactArithmetic.

(** C5, as the specification states it, fails for a path of no segment: its only
    point is (NaN, NaN, NaN), which is not the projection of the origin
    (here Moscow, on the host of the samples). *)
Lemma C5_no_segment_no_endpoint :
  @calculateCurvePoints float (float_scalar HostMath.host)
     55.75%float 37.62%float 59.94%float 30.31%float 0
  = [mkVector3 nan nan nan]
  /\ PrimFloat.is_nan
       (x (@latLongToVector3 float (float_scalar HostMath.host)
             55.75%float 37.62%float
             (@altitude float (float_scalar HostMath.host)))) = false.
Proof. split; vm_compute; reflexivity. Qed.

(** In binary64 the endpoints are met up to rounding only: on the host
    of the samples the first of the 51 points of the path from Moscow to
    Saint Petersburg is not the projection of Moscow, digit for digit. *)
Lemma first_point_is_rounded :
  option_map x
    (nth_error (@calculateCurvePoints float (float_scalar HostMath.host)
                  55.75%float 37.62%float 59.94%float 30.31%float 50) 0)
  = Some 0.46807385269250285%float
  /\ x (@latLongToVector3 float (float_scalar HostMath.host)
          55.75%float 37.62%float
          (@altitude float (float_scalar HostMath.host)))
     = 0.46807385269250273%float.
Proof. split; vm_compute; reflexivity. Qed.

End PathGenerator.

(* ================================================================== *)
(** * The ledger of the airports *)
(* ================================================================== *)

Module LedgerFacts.
Import JS Three Engine Samples FloatFacts Ledger.
Local Open Scope float_scope.

Lemma SFeqb_refl u : u <> S754_nan -> SFeqb u u = true.
Proof.
  unfold SFeqb, SFcompare. intros Hu.
  destruct u as [s|s| |s m e]; try congruence; try destruct s; try reflexivity;
    rewrite Z.compare_refl;
    change (Pos.compare_cont Eq m m) with (Pos.compare m m);
    now rewrite Pos.compare_refl.
Qed.

Lemma sameNumberString_refl a : sameNumberString a a = true.
Proof.
  unfold sameNumberString. destruct (PrimFloat.is_nan a) eqn:N.
  - now rewrite orb_true_r.
  - rewrite FloatAxioms.eqb_spec, SFeqb_refl; [reflexivity|].
    now apply is_nan_spec.
Qed.

Lemma hasKey_self la lo n :
  hasKey la lo {| lat := la; lon := lo; planes := n |} = true.
Proof. unfold hasKey. simpl. now rewrite !sameNumberString_refl. Qed.

(** ** Lookups *)

Lemma hasAirport_adjust la lo la' lo' delta l :
  hasAirport la lo (adjustPlanes la' lo' delta l) = hasAirport la lo l.
Proof.
  unfold hasAirport. induction l as [|a l IH]; simpl; [reflexivity|].
  destruct (hasKey la' lo' a); simpl; [reflexivity|]. now rewrite IH.
Qed.

Lemma hasAirport_ensure_other la lo la' lo' l :
  hasAirport la lo l = true -> hasAirport la lo (ensureAirport la' lo' l) = true.
Proof.
  unfold ensureAirport. intros H. destruct (hasAirport la' lo' l); [exact H|].
  unfold hasAirport in *. rewrite existsb_app, H. reflexivity.
Qed.

Lemma hasAirport_ensure la lo l :
  hasAirport la lo (ensureAirport la lo l) = true.
Proof.
  unfold ensureAirport. destruct (hasAirport la lo l) eqn:H; [exact H|].
  unfold hasAirport. rewrite existsb_app. simpl.
  now rewrite hasKey_self, orb_true_r.
Qed.

Lemma hasAirport_register la lo l f :
  hasAirport la lo l = true -> hasAirport la lo (registerFlight l f) = true.
Proof.
  intros H. unfold registerFlight. cbv zeta.
  apply hasAirport_ensure_other. rewrite hasAirport_adjust.
  now apply hasAirport_ensure_other.
Qed.

Lemma endpointsKnown_register l f : endpointsKnown (registerFlight l f) f = true.
Proof.
  unfold endpointsKnown. apply andb_true_iff. split.
  - unfold registerFlight. cbv zeta. apply hasAirport_ensure_other.
    rewrite hasAirport_adjust. apply hasAirport_ensure.
  - unfold registerFlight. cbv zeta. apply hasAirport_ensure.
Qed.

Lemma hasAirport_registered la lo fs : forall l,
  hasAirport la lo l = true ->
  hasAirport la lo (fold_left registerFlight fs l) = true.
Proof.
  induction fs as [|f fs IH]; intros l H; simpl; [exact H|].
  apply IH. now apply hasAirport_register.
Qed.

Lemma endpointsKnown_registered fs : forall l f,
  In f fs -> endpointsKnown (fold_left registerFlight fs l) f = true.
Proof.
  induction fs as [|g fs IH]; intros l f Hf; [destruct Hf|].
  destruct Hf as [->|Hf]; simpl.
  - pose proof (endpointsKnown_register l f) as K.
    unfold endpointsKnown in *. apply andb_true_iff in K as [K1 K2].
    apply andb_true_iff. split; now apply hasAirport_registered.
  - now apply IH.
Qed.

(** ** Totals *)

Lemma totalPlanes_app l l' :
  totalPlanes (l ++ l') = (totalPlanes l + totalPlanes l')%Z.
Proof.
  unfold totalPlanes. induction l as [|a l IH]; simpl; [reflexivity|].
  rewrite IH. lia.
Qed.

Lemma totalPlanes_ensure la lo l :
  totalPlanes (ensureAirport la lo l) = totalPlanes l.
Proof.
  unfold ensureAirport. destruct (hasAirport la lo l); [reflexivity|].
  rewrite totalPlanes_app. simpl. lia.
Qed.

Lemma totalPlanes_adjust la lo delta l :
  totalPlanes (adjustPlanes la lo delta l)
  = (totalPlanes l + if hasAirport la lo l then delta else 0)%Z.
Proof.
  unfold hasAirport. induction l as [|a l IH]; simpl; [reflexivity|].
  destruct (hasKey la lo a); simpl; [lia|].
  fold (totalPlanes (adjustPlanes la lo delta l)). rewrite IH.
  fold (totalPlanes l). lia.
Qed.

Lemma totalPlanes_register l f :
  totalPlanes (registerFlight l f) = (totalPlanes l + 1)%Z.
Proof.
  unfold registerFlight. cbv zeta.
  rewrite totalPlanes_ensure, totalPlanes_adjust, hasAirport_ensure,
          totalPlanes_ensure.
  reflexivity.
Qed.

Lemma totalPlanes_registered fs : forall l,
  totalPlanes (fold_left registerFlight fs l)
  = (totalPlanes l + Z.of_nat (List.length fs))%Z.
Proof.
  induction fs as [|f fs IH]; intros l; simpl List.length; simpl fold_left.
  - lia.
  - rewrite IH, totalPlanes_register. lia.
Qed.

Lemma countFlag_cons flag f fs :
  countFlag flag (f :: fs)
  = ((if flag f then 1 else 0) + countFlag flag fs)%Z.
Proof.
  unfold countFlag. simpl. destruct (flag f); simpl List.length; lia.
Qed.

(** ** One tick *)

Lemma updatePlane_ledger ct f slot airports :
  endpointsKnown airports f = true ->
  let r := updatePlane ct f slot airports in
  data (fst (fst r)) = data f
  /\ (forall la lo, hasAirport la lo (snd r) = hasAirport la lo airports)
  /\ (totalPlanes (snd r)
      + (if departed (fst (fst r)) then 1 else 0)
      - (if arrived (fst (fst r)) then 1 else 0)
      = totalPlanes airports
        + (if departed f then 1 else 0) - (if arrived f then 1 else 0))%Z.
Proof.
  intros K. unfold endpointsKnown in K. apply andb_true_iff in K as [Ko Kd].
  cbv zeta. rewrite Occupancy.updatePlane_cases.
  destruct (departureWindow _ && negb (departed f)) eqn:D;
    [|destruct (arrivalWindow _ && negb (arrived f)) eqn:A;
      [|destruct (enRoute _)]];
    simpl; repeat split; intros;
    rewrite ?hasAirport_adjust, ?totalPlanes_adjust, ?Ko, ?Kd; auto.
  - apply andb_true_iff in D as [_ D]. apply negb_true_iff in D.
    rewrite D. destruct (arrived f); lia.
  - apply andb_true_iff in A as [_ A]. apply negb_true_iff in A.
    rewrite A. destruct (departed f); lia.
Qed.

Lemma updatePlanes_ledger ct fs : forall ms airports,
  forallb (endpointsKnown airports) fs = true ->
  let r := updatePlanes ct fs ms airports in
  map data (fst (fst r)) = map data fs
  /\ (forall la lo, hasAirport la lo (snd r) = hasAirport la lo airports)
  /\ balance (snd r) (fst (fst r)) = balance airports fs
  /\ List.length (snd (fst r)) = List.length ms.
Proof.
  induction fs as [|f fs IH]; intros ms airports K; cbv zeta.
  - simpl. repeat split; auto.
  - simpl in K. apply andb_true_iff in K as [Kf Kfs].
    simpl updatePlanes.
    pose proof (updatePlane_ledger ct f (hd Unwritten ms) airports Kf) as P.
    cbv zeta in P.
    destruct (updatePlane ct f (hd Unwritten ms) airports)
      as [[f' slot'] airports'].
    simpl in P. destruct P as (Pd & Ph & Pt).
    assert (Kfs' : forallb (endpointsKnown airports') fs = true).
    { rewrite forallb_forall in *. intros g Hg. specialize (Kfs g Hg).
      unfold endpointsKnown in *. now rewrite !Ph. }
    specialize (IH (tl ms) airports' Kfs'). cbv zeta in IH.
    destruct (updatePlanes ct fs (tl ms) airports')
      as [[fs'' ms'] airports''].
    simpl in IH. destruct IH as (Id & Ih & It & Il).
    simpl. repeat split.
    + now rewrite Pd, Id.
    + intros. now rewrite Ih, Ph.
    + unfold balance in *. rewrite !countFlag_cons. lia.
    + destruct ms; simpl in *; [reflexivity|now rewrite Il].
Qed.

(** ** The invariant of a run *)

Lemma forallb_same_data airports fs fs' :
  map data fs' = map data fs ->
  forallb (endpointsKnown airports) fs' = forallb (endpointsKnown airports) fs.
Proof.
  revert fs'. induction fs as [|f fs IH]; intros [|f' fs'] E; simpl in *;
    try discriminate; [reflexivity|].
  injection E as Ef Efs. rewrite (IH _ Efs). f_equal.
  unfold endpointsKnown. now rewrite Ef.
Qed.

Lemma updateInstancedPlanes_ledger ct s :
  ledgerOK s -> ledgerOK (updateInstancedPlanes ct s).
Proof.
  intros (K & B & L). unfold updateInstancedPlanes.
  destruct (flights s) as [|f fs] eqn:E; [unfold ledgerOK; now rewrite E|].
  pose proof (updatePlanes_ledger ct (f :: fs) (instanceMatrix s)
                (airportStars s) K) as P. cbv zeta in P.
  destruct (updatePlanes ct (f :: fs) (instanceMatrix s) (airportStars s))
    as [[fs' ms'] airports'].
  cbn [fst snd] in P. destruct P as (Pd & Ph & Pb & Pl).
  assert (Len : List.length fs' = List.length (f :: fs))
    by (rewrite <- (length_map data fs'), Pd; apply length_map).
  unfold ledgerOK. simpl. repeat split.
  - rewrite (forallb_same_data _ _ _ Pd).
    rewrite forallb_forall in *. intros g Hg. specialize (K g Hg).
    unfold endpointsKnown in *. now rewrite !Ph.
  - rewrite Pb, B. now rewrite Len.
  - rewrite Pl, L. now rewrite Len.
Qed.

(** [Flight.update] keeps what the occupancy code reads, and
    [updatePlane] keeps what [Flight.update] reads and writes. *)
Lemma update_occupancyView ct f f' :
  update ct f = Normal f' -> occupancyView f' = occupancyView f.
Proof.
  intros [[-> _]|(z & ws & _ & _ & _ & ->)]%Reveal.update_returns;
    unfold occupancyView, added; destruct (_ && _); reflexivity.
Qed.

Lemma updateAll_occupancyView ct fs : forall fs',
  updateAll ct fs = Normal fs' ->
  map occupancyView fs' = map occupancyView fs.
Proof.
  induction fs as [|f fs IH]; intros fs' H; simpl in H.
  - now inversion H.
  - destruct (update ct f) as [f1| |] eqn:U; simpl in H; try discriminate.
    destruct (updateAll ct fs) as [fs1| |]; simpl in H; try discriminate.
    inversion H; subst. simpl.
    now rewrite (update_occupancyView _ _ _ U), (IH _ eq_refl).
Qed.

Lemma countFlag_view flag fs fs' :
  map flag fs' = map flag fs -> countFlag flag fs' = countFlag flag fs.
Proof.
  revert fs'. induction fs as [|f fs IH]; intros [|f' fs'] E; simpl in E;
    try discriminate; [reflexivity|].
  injection E as Ef Efs. rewrite !countFlag_cons, Ef, (IH _ Efs). reflexivity.
Qed.

Lemma occupancyView_maps fs fs' :
  map occupancyView fs' = map occupancyView fs ->
  map data fs' = map data fs
  /\ map departed fs' = map departed fs
  /\ map arrived fs' = map arrived fs
  /\ List.length fs' = List.length fs.
Proof.
  revert fs'. induction fs as [|f fs IH]; intros [|f' fs'] E; simpl in E;
    try discriminate; [auto|].
  injection E as E1 E2 E3 E4 E5 Efs.
  destruct (IH _ Efs) as (A & B & C & D). simpl.
  repeat split; congruence.
Qed.

Lemma animate_ledger r s s' :
  animate r s = Normal s' -> ledgerOK s -> ledgerOK s'.
Proof.
  unfold animate. cbv zeta. intros H OK.
  apply (updateInstancedPlanes_ledger (simTime r s)) in OK.
  destruct (updateAll _ _) as [fs| |] eqn:U; simpl in H; try discriminate.
  inversion H; subst s'; clear H.
  apply updateAll_occupancyView in U.
  destruct (occupancyView_maps _ _ U) as (Ed & Edep & Earr & El).
  destruct OK as (K & B & L). unfold ledgerOK, balance in *. simpl.
  rewrite (forallb_same_data _ _ _ Ed), (countFlag_view _ _ _ Edep),
          (countFlag_view _ _ _ Earr), El.
  auto.
Qed.

Lemma run_ledger es : forall s s',
  run es s = Normal s' -> ledgerOK s -> ledgerOK s'.
Proof.
  induction es as [|[r|v] es IH]; intros s s' H OK; simpl in H.
  - now inversion H; subst.
  - destruct (animate r s) as [s1| |] eqn:A; simpl in H; try discriminate.
    eapply IH; [exact H|]. eapply animate_ledger; eauto.
  - eapply IH; [exact H|]. exact OK.
Qed.

Lemma loadFlightData_ledger M rows : ledgerOK (loadFlightData M rows).
Proof.
  unfold ledgerOK, loadFlightData. cbv zeta. simpl.
  set (fs := map (Flight_new M) _).
  repeat split.
  - apply forallb_forall. intros f Hf. unfold createAirportStars.
    now apply endpointsKnown_registered.
  - unfold balance, createAirportStars. rewrite totalPlanes_registered.
    assert (Z : forall flag, (forall f, In f fs -> flag f = false) ->
                             countFlag flag fs = 0%Z).
    { intros flag Hf. unfold countFlag.
      replace (filter flag fs) with (@nil Flight); [reflexivity|].
      symmetry. induction fs as [|g gs IHg]; [reflexivity|].
      simpl. rewrite (Hf g) by (now left). apply IHg.
      intros; apply Hf; now right. }
    rewrite !Z; [simpl; lia| |];
      intros f Hf; apply in_map_iff in Hf as (d & <- & _); reflexivity.
  - apply repeat_length.
Qed.

(** X1: in every state that a run of frames and slider inputs reaches
    from a loaded dataset, both airport lookups of the occupancy code
    succeed for every flight: the origin and the destination of each
    flight are among [airportStars]. *)
Theorem airports_of_every_flight_are_known :
  forall (M : MathLib) (rows : list FlightData) (es : list event) (s : State)
         (f : Flight),
    run es (loadFlightData M rows) = Normal s ->
    In f (flights s) ->
    hasAirport (origin_lat (data f)) (origin_lon (data f)) (airportStars s)
    = true
    /\ hasAirport (destination_lat (data f)) (destination_lon (data f))
                  (airportStars s) = true.
Proof.
  intros M rows es s f Run Hf.
  destruct (run_ledger es _ _ Run (loadFlightData_ledger M rows)) as (K & _).
  rewrite forallb_forall in K. specialize (K f Hf).
  now apply andb_true_iff in K.
Qed.

Lemma airports_known_witness :
  hasAirport (origin_lat (data fresh)) (origin_lon (data fresh))
             (airportStars landed) = true
  /\ hasAirport (destination_lat (data fresh)) (destination_lon (data fresh))
                (airportStars landed) = true.
Proof.
  apply (airports_of_every_flight_are_known HostMath.host [svo_led]
           [Frame 125.01; Frame 126; Frame 127.3; Frame 130] landed
           (hd fresh (flights landed))).
  - vm_compute. reflexivity.
  - vm_compute. left. reflexivity.
Defined.

(** X2: the planes are conserved.  In every state that a run reaches
    from a loaded dataset, the planes counted at the airports, plus the
    flights that have departed, minus the flights that have arrived, are
    as many as the flights. *)
Theorem planes_are_conserved :
  forall (M : MathLib) (rows : list FlightData) (es : list event) (s : State),
    run es (loadFlightData M rows) = Normal s ->
    (totalPlanes (airportStars s) + countFlag departed (flights s)
     - countFlag arrived (flights s)
     = Z.of_nat (List.length (flights s)))%Z.
Proof.
  intros M rows es s Run.
  now destruct (run_ledger es _ _ Run (loadFlightData_ledger M rows))
    as (_ & B & _).
Qed.

Lemma planes_conserved_witness :
  (totalPlanes (airportStars landed) + countFlag departed (flights landed)
   - countFlag arrived (flights landed)
   = Z.of_nat (List.length (flights landed)))%Z.
Proof.
  apply (planes_are_conserved HostMath.host [svo_led]
           [Frame 125.01; Frame 126; Frame 127.3; Frame 130]).
  vm_compute. reflexivity.
Defined.

Lemma flightAfterTick_data ct f : data (flightAfterTick ct f) = data f.
Proof.
  exact (proj2 (proj2 (Occupancy.tickPlane_schedule ct (f, Unwritten, [])))).
Qed.

Lemma run_data es : forall s0 s1,
  run es s0 = Normal s1 -> map data (flights s1) = map data (flights s0).
Proof.
  induction es as [|[r|v] es IH]; intros s0 s1 H; simpl in H.
  - now inversion H.
  - unfold animate in H. cbv zeta in H.
    destruct (updateAll _ _) as [fs| |] eqn:U; simpl in H; try discriminate.
    rewrite (IH _ _ H). simpl.
    apply updateAll_occupancyView in U.
    destruct (occupancyView_maps _ _ U) as (-> & _).
    rewrite Occupancy.updateInstancedPlanes_flights, map_map.
    apply map_ext. intros f. apply flightAfterTick_data.
  - now rewrite (IH _ _ H).
Qed.

(** X3: one slot for each flight.  In every state that a run reaches
    from a loaded dataset, the instance matrix has as many slots as there
    are flights, and the flights are the rows of the dataset that have a
    truthy departure time, in their order. *)
Theorem one_slot_for_each_flight :
  forall (M : MathLib) (rows : list FlightData) (es : list event) (s : State),
    run es (loadFlightData M rows) = Normal s ->
    List.length (instanceMatrix s) = List.length (flights s)
    /\ map data (flights s)
       = filter (fun d => truthy (departure_time d)) rows.
Proof.
  intros M rows es s Run. split.
  - now destruct (run_ledger es _ _ Run (loadFlightData_ledger M rows))
      as (_ & _ & L).
  - rewrite (run_data es _ _ Run). unfold loadFlightData. cbv zeta. simpl.
    rewrite map_map. unfold Flight_new. simpl. apply map_id.
Qed.

Lemma one_slot_witness :
  List.length (instanceMatrix landed) = List.length (flights landed)
  /\ map data (flights landed)
     = filter (fun d => truthy (departure_time d)) [svo_led].
Proof.
  apply (one_slot_for_each_flight HostMath.host [svo_led]
           [Frame 125.01; Frame 126; Frame 127.3; Frame 130]).
  vm_compute. reflexivity.
Defined.

End LedgerFacts.

(* ================================================================== *)
(** * The count of each airport *)
(* ================================================================== *)

Module AirportFacts.
Import JS Three Engine Samples FloatFacts Ledger.
Local Open Scope float_scope.

(** ** Equality of the keys *)

Lemma SFeqb_true u v :
  SFeqb u v = true ->
  u = v \/ exists s s', u = S754_zero s /\ v = S754_zero s'.
Proof.
  unfold SFeqb, SFcompare.
  destruct u as [s|s| |s m e], v as [s'|s'| |s' m' e']; try discriminate;
    try (destruct s; discriminate); try (destruct s'; discriminate).
  - right. eauto.
  - destruct s, s'; try discriminate; auto.
  - destruct s, s'; try discriminate;
      destruct (Z.compare e e') eqn:E; try discriminate;
      apply Z.compare_eq in E; subst e';
      change (Pos.compare_cont Eq m m') with (Pos.compare m m');
      destruct (Pos.compare m m') eqn:P; try discriminate;
      apply Pos.compare_eq in P; subst m'; auto.
Qed.

Lemma SFeqb_not_refl u : negb (SFeqb u u) = true -> u = S754_nan.
Proof.
  intros H. destruct u as [s|s| |s m e]; try reflexivity;
    rewrite LedgerFacts.SFeqb_refl in H by discriminate; discriminate.
Qed.

Lemma sameNumberString_true a b :
  sameNumberString a b = true ->
  a = b \/ exists s s', Prim2SF a = S754_zero s /\ Prim2SF b = S754_zero s'.
Proof.
  unfold sameNumberString, PrimFloat.is_nan. rewrite !FloatAxioms.eqb_spec.
  intros H. apply orb_true_iff in H as [H|H].
  - apply SFeqb_true in H as [E|Z]; [left; now apply Prim2SF_inj|now right].
  - apply andb_true_iff in H as [Ha Hb]. left. apply Prim2SF_inj.
    now rewrite (SFeqb_not_refl _ Ha), (SFeqb_not_refl _ Hb).
Qed.

Lemma sameNumberString_zeros a b c s s' :
  Prim2SF a = S754_zero s -> Prim2SF b = S754_zero s' ->
  sameNumberString c a = sameNumberString c b
  /\ sameNumberString a b = true /\ sameNumberString b a = true.
Proof.
  intros Ha Hb. unfold sameNumberString, PrimFloat.is_nan.
  rewrite !FloatAxioms.eqb_spec, Ha, Hb.
  destruct (Prim2SF c) as [t|t| |t m e]; repeat split; try reflexivity;
    destruct t; reflexivity.
Qed.

Lemma sameNumberString_sym a b :
  sameNumberString a b = sameNumberString b a.
Proof.
  assert (One : forall u v, sameNumberString u v = true ->
                            sameNumberString v u = true).
  { intros u v [->|(s & s' & Hu & Hv)]%sameNumberString_true.
    - apply LedgerFacts.sameNumberString_refl.
    - now destruct (sameNumberString_zeros u v u s s' Hu Hv) as (_ & _ & R). }
  destruct (sameNumberString a b) eqn:E1, (sameNumberString b a) eqn:E2;
    try reflexivity.
  - apply One in E1. congruence.
  - apply One in E2. congruence.
Qed.

Lemma sameNumberString_trans a b c :
  sameNumberString a b = true ->
  sameNumberString c b = sameNumberString c a.
Proof.
  intros [->|(s & s' & Ha & Hb)]%sameNumberString_true; [reflexivity|].
  now destruct (sameNumberString_zeros b a c s' s Hb Ha) as (R & _).
Qed.

Lemma sameKey_sym ka ko la lo : sameKey ka ko la lo = sameKey la lo ka ko.
Proof.
  unfold sameKey.
  now rewrite (sameNumberString_sym ka la), (sameNumberString_sym ko lo).
Qed.

Lemma sameKey_trans ka ko la lo ma mo :
  sameKey ka ko la lo = true ->
  sameKey ma mo la lo = sameKey ma mo ka ko.
Proof.
  unfold sameKey. intros [A B]%andb_true_iff.
  now rewrite (sameNumberString_trans _ _ ma A),
              (sameNumberString_trans _ _ mo B).
Qed.

Lemma hasKey_sameKey la lo a : hasKey la lo a = sameKey (lat a) (lon a) la lo.
Proof. reflexivity. Qed.

Lemma hasAirport_false la lo l a :
  hasAirport la lo l = false -> In a l -> hasKey la lo a = false.
Proof.
  unfold hasAirport. intros H Ha.
  destruct (hasKey la lo a) eqn:K; [|reflexivity].
  assert (T : existsb (hasKey la lo) l = true)
    by (apply existsb_exists; eauto).
  congruence.
Qed.

(** Two pairs with the same key are found in the same lists. *)
Lemma hasAirport_sameKey ka ko la lo l :
  sameKey ka ko la lo = true -> hasAirport ka ko l = hasAirport la lo l.
Proof.
  intros K. unfold hasAirport. induction l as [|a l IH]; simpl; [reflexivity|].
  rewrite IH. f_equal. rewrite !hasKey_sameKey.
  symmetry. now apply sameKey_trans.
Qed.

(** ** Airports as a table of counts *)

Lemma counts_ext D D' l :
  (forall ka ko, D ka ko = D' ka ko) -> counts D l -> counts D' l.
Proof.
  intros E H. unfold counts in *. rewrite Forall_forall in *.
  intros a Ha. now rewrite <- E, <- (H a Ha).
Qed.

Lemma adjustPlanes_distinct la lo delta l :
  distinctKeys (adjustPlanes la lo delta l) = distinctKeys l.
Proof.
  induction l as [|a l IH]; simpl; [reflexivity|].
  destruct (hasKey la lo a); simpl; [reflexivity|].
  now rewrite LedgerFacts.hasAirport_adjust, IH.
Qed.

(** With distinct keys, [find] meets the only airport of the key. *)
Lemma adjustPlanes_counts la lo delta D l :
  distinctKeys l = true -> counts D l ->
  counts (fun ka ko =>
            (D ka ko + if sameKey ka ko la lo then delta else 0)%Z)
         (adjustPlanes la lo delta l).
Proof.
  unfold counts. induction l as [|a l IH]; intros Dk H; simpl;
    [constructor|].
  simpl in Dk. apply andb_true_iff in Dk as [Na Dl].
  apply negb_true_iff in Na.
  inversion H as [|? ? Ha Hl]; subst.
  destruct (hasKey la lo a) eqn:K.
  - constructor.
    + simpl. rewrite hasKey_sameKey in K. now rewrite K, Ha.
    + rewrite Forall_forall in *. intros b Hb.
      rewrite (Hl b Hb).
      replace (sameKey (lat b) (lon b) la lo) with false; [lia|].
      symmetry. rewrite hasKey_sameKey in K.
      rewrite (sameKey_trans _ _ _ _ (lat b) (lon b) K).
      rewrite <- hasKey_sameKey. now apply (hasAirport_false _ _ l).
  - constructor.
    + rewrite hasKey_sameKey in K. rewrite K, Ha. lia.
    + now apply IH.
Qed.

(** ** The loader *)

Lemma table_ext D D' l :
  (forall ka ko, D ka ko = D' ka ko) -> table D l -> table D' l.
Proof.
  intros E (Dl & C & N). repeat split; auto.
  - now apply (counts_ext D).
  - intros ka ko H. rewrite <- E. now apply N.
Qed.

Lemma distinctKeys_app_one l a :
  distinctKeys l = true -> hasAirport (lat a) (lon a) l = false ->
  distinctKeys (l ++ [a]) = true.
Proof.
  induction l as [|b l IH]; intros Dl Na; simpl; [reflexivity|].
  simpl in Dl. apply andb_true_iff in Dl as [Nb Dl].
  apply negb_true_iff in Nb.
  unfold hasAirport in Na. simpl in Na.
  apply orb_false_iff in Na as [Kb Na].
  apply andb_true_iff. split; [|now apply IH].
  apply negb_true_iff. unfold hasAirport in *. rewrite existsb_app, Nb.
  simpl. rewrite orb_false_r.
  rewrite hasKey_sameKey, sameKey_sym, <- hasKey_sameKey. exact Kb.
Qed.

Lemma ensureAirport_table D la lo l :
  table D l -> table D (ensureAirport la lo l).
Proof.
  intros (Dl & C & N). unfold ensureAirport.
  destruct (hasAirport la lo l) eqn:H; [now repeat split|].
  repeat split.
  - now apply distinctKeys_app_one.
  - unfold counts. apply Forall_app. split; [exact C|].
    constructor; [|constructor]. simpl. symmetry. now apply N.
  - intros ka ko H'. apply N. unfold hasAirport in *.
    rewrite existsb_app in H'. now apply orb_false_iff in H' as [H' _].
Qed.

Lemma registerFlight_table D l f :
  table D l ->
  table (fun ka ko => (D ka ko + if originates ka ko f then 1 else 0)%Z)
        (registerFlight l f).
Proof.
  intros T. unfold registerFlight; cbv zeta.
  apply ensureAirport_table.
  apply (ensureAirport_table D (origin_lat (data f)) (origin_lon (data f)))
    in T.
  destruct T as (Dl & C & N).
  repeat split.
  - now rewrite adjustPlanes_distinct.
  - now apply adjustPlanes_counts.
  - intros ka ko H. rewrite LedgerFacts.hasAirport_adjust in H.
    rewrite (N _ _ H). unfold originates.
    destruct (sameKey ka ko _ _) eqn:K; [|reflexivity].
    rewrite (hasAirport_sameKey _ _ _ _ _ K) in H.
    now rewrite LedgerFacts.hasAirport_ensure in H.
Qed.

Lemma createAirportStars_table fs : forall D l,
  table D l ->
  table (fun ka ko => (D ka ko + countFlag (originates ka ko) fs)%Z)
        (fold_left registerFlight fs l).
Proof.
  induction fs as [|f fs IH]; intros D l T; simpl fold_left.
  - apply (table_ext D); [|exact T].
    intros. unfold countFlag. simpl. lia.
  - apply (registerFlight_table D l f) in T. apply IH in T.
    revert T. apply table_ext. intros ka ko.
    rewrite LedgerFacts.countFlag_cons. lia.
Qed.

(** ** One tick *)

Lemma onGround_cons ka ko f fs :
  onGround ka ko (f :: fs) = (score ka ko f + onGround ka ko fs)%Z.
Proof.
  unfold onGround, score. rewrite !LedgerFacts.countFlag_cons. lia.
Qed.

Lemma updatePlane_counts ct f slot l D :
  distinctKeys l = true -> counts D l ->
  let r := updatePlane ct f slot l in
  distinctKeys (snd r) = true
  /\ counts (fun ka ko =>
               (D ka ko + score ka ko (fst (fst r)) - score ka ko f)%Z)
            (snd r).
Proof.
  intros Dl C. cbv zeta. rewrite Occupancy.updatePlane_cases. cbv zeta.
  destruct (departureWindow _ && negb (departed f)) eqn:Dep;
    [|destruct (arrivalWindow _ && negb (arrived f)) eqn:Arr;
      [|assert (Same : distinctKeys l = true
                 /\ counts (fun ka ko =>
                      (D ka ko + score ka ko f - score ka ko f)%Z) l)
          by (split; [exact Dl|];
              apply (counts_ext D); [intros; lia|exact C]);
        destruct (enRoute _); exact Same]];
    cbn [fst snd]; rewrite adjustPlanes_distinct; (split; [exact Dl|]).
  - apply andb_true_iff in Dep as [_ Dep]. apply negb_true_iff in Dep.
    eapply counts_ext; [|apply (adjustPlanes_counts _ _ (-1)%Z D l Dl C)].
    intros ka ko. unfold score, waiting, landedAt. simpl. rewrite Dep.
    rewrite andb_false_r, andb_true_r.
    destruct (sameKey ka ko (origin_lat _) (origin_lon _)); lia.
  - apply andb_true_iff in Arr as [_ Arr]. apply negb_true_iff in Arr.
    eapply counts_ext; [|apply (adjustPlanes_counts _ _ 1%Z D l Dl C)].
    intros ka ko. unfold score, waiting, landedAt. simpl. rewrite Arr.
    rewrite andb_false_r, andb_true_r.
    destruct (sameKey ka ko (destination_lat _) (destination_lon _)); lia.
Qed.

Lemma updatePlanes_counts ct fs : forall ms l D,
  distinctKeys l = true -> counts D l ->
  let r := updatePlanes ct fs ms l in
  distinctKeys (snd r) = true
  /\ counts (fun ka ko =>
               (D ka ko + onGround ka ko (fst (fst r)) - onGround ka ko fs)%Z)
            (snd r).
Proof.
  induction fs as [|f fs IH]; intros ms l D Dl C; cbv zeta.
  - simpl. split; [exact Dl|].
    apply (counts_ext D); [intros; lia|exact C].
  - simpl updatePlanes.
    pose proof (updatePlane_counts ct f (hd Unwritten ms) l D Dl C) as P.
    cbv zeta in P.
    destruct (updatePlane ct f (hd Unwritten ms) l) as [[f' slot'] l'].
    cbn [fst snd] in P. destruct P as [Dl' C'].
    specialize (IH (tl ms) l' _ Dl' C'). cbv zeta in IH.
    destruct (updatePlanes ct fs (tl ms) l') as [[fs'' ms'] l''].
    cbn [fst snd] in *. destruct IH as [Dl'' C''].
    split; [exact Dl''|].
    eapply counts_ext; [|exact C'']. intros ka ko. cbv beta.
    rewrite !onGround_cons. lia.
Qed.

(** ** The invariant of a run *)

Lemma updateInstancedPlanes_countsOK ct s :
  countsOK s -> countsOK (updateInstancedPlanes ct s).
Proof.
  unfold countsOK, updateInstancedPlanes.
  destruct (flights s) as [|f fs] eqn:E; intros [Dl C]; [now rewrite E|].
  pose proof (updatePlanes_counts ct (f :: fs) (instanceMatrix s)
                (airportStars s) _ Dl C) as P. cbv zeta in P.
  destruct (updatePlanes _ _ _ _) as [[fs' ms'] l']. cbn [fst snd] in P.
  destruct P as [Dl' C']. simpl. split; [exact Dl'|].
  eapply counts_ext; [|exact C']. intros. cbv beta. lia.
Qed.

Lemma onGround_view ka ko fs fs' :
  map occupancyView fs' = map occupancyView fs ->
  onGround ka ko fs' = onGround ka ko fs.
Proof.
  intros V. unfold onGround.
  assert (W : map (waiting ka ko) fs' = map (waiting ka ko) fs
              /\ map (landedAt ka ko) fs' = map (landedAt ka ko) fs).
  { revert fs' V. induction fs as [|f fs IH]; intros [|f' fs'] V;
      simpl in V; try discriminate; [auto|].
    injection V as E1 E2 E3 E4 E5 V. destruct (IH _ V) as [Iw Il].
    simpl. rewrite Iw, Il. unfold waiting, landedAt.
    now rewrite E1, E4, E5. }
  destruct W as [W L].
  now rewrite (LedgerFacts.countFlag_view _ _ _ W),
              (LedgerFacts.countFlag_view _ _ _ L).
Qed.

Lemma run_countsOK es : forall s s',
  run es s = Normal s' -> countsOK s -> countsOK s'.
Proof.
  induction es as [|[r|v] es IH]; intros s s' H OK; simpl in H.
  - inversion H; subst. exact OK.
  - destruct (animate r s) as [s1| |] eqn:A; simpl in H; try discriminate.
    apply (IH _ _ H). unfold animate in A; cbv zeta in A.
    destruct (updateAll _ _) as [fs| |] eqn:U; simpl in A; try discriminate.
    inversion A; subst s1.
    apply (updateInstancedPlanes_countsOK (simTime r s)) in OK.
    destruct OK as [Dl C]. split; [exact Dl|]. simpl.
    eapply counts_ext; [|exact C]. intros ka ko. cbv beta.
    symmetry. apply onGround_view.
    now apply (LedgerFacts.updateAll_occupancyView (simTime r s)).
  - apply (IH _ _ H). exact OK.
Qed.

Lemma countFlag_map {A} (flag : Flight -> bool) (g : A -> Flight) l :
  countFlag flag (map g l)
  = Z.of_nat (List.length (filter (fun d => flag (g d)) l)).
Proof.
  unfold countFlag. induction l as [|d l IH]; [reflexivity|].
  simpl. destruct (flag (g d)); simpl List.length; lia.
Qed.

Lemma filter_none {A} (l : list A) : filter (fun _ => false) l = [].
Proof. induction l; simpl; auto. Qed.

Lemma loadFlightData_countsOK M rows : countsOK (loadFlightData M rows).
Proof.
  unfold countsOK, loadFlightData; cbv zeta; simpl.
  set (ds := filter _ rows).
  assert (T : table (fun _ _ => 0%Z) []).
  { split; [reflexivity|]. split; [constructor|reflexivity]. }
  apply (createAirportStars_table (map (Flight_new M) ds)) in T.
  destruct T as (Dl & C & _). split; [exact Dl|].
  eapply counts_ext; [|exact C]. intros ka ko. cbv beta.
  unfold onGround. rewrite !countFlag_map.
  rewrite (filter_ext (fun d => landedAt ka ko (Flight_new M d))
                      (fun _ => false))
    by (intros d; unfold landedAt, Flight_new; cbv zeta; simpl;
        apply andb_false_r).
  rewrite (filter_ext (fun d => waiting ka ko (Flight_new M d))
                      (fun d => originates ka ko (Flight_new M d)))
    by (intros d; unfold waiting, originates, Flight_new; cbv zeta; simpl;
        apply andb_true_r).
  rewrite filter_none. simpl List.length. lia.
Qed.

Lemma countFlag_nonneg flag fs : (0 <= countFlag flag fs)%Z.
Proof. unfold countFlag. lia. Qed.

(** X4: the count of every airport is the number of planes that the
    flags place on its ground.  In every state that a run reaches from
    a loaded dataset, no two airports have the same key, and the count
    [planes] of each airport is the number of flights that start there
    and have not departed plus the number of flights that end there and
    have arrived; so no count is ever negative. *)
Theorem airport_counts_planes_on_its_ground M rows es s a :
  run es (loadFlightData M rows) = Normal s ->
  In a (airportStars s) ->
  planes a = onGround (lat a) (lon a) (flights s)
  /\ (0 <= planes a)%Z
  /\ distinctKeys (airportStars s) = true.
Proof.
  intros Run Ha.
  destruct (run_countsOK es _ _ Run (loadFlightData_countsOK M rows))
    as [Dl C].
  unfold counts in C. rewrite Forall_forall in C. specialize (C a Ha).
  cbv beta in C. repeat split; [exact C| |exact Dl].
  rewrite C. unfold onGround.
  pose proof (countFlag_nonneg (waiting (lat a) (lon a)) (flights s)).
  pose proof (countFlag_nonneg (landedAt (lat a) (lon a)) (flights s)).
  lia.
Qed.

(** The airport of Saint Petersburg after the landing. *)
Lemma airport_counts_witness :
  planes {| lat := 59.94; lon := 30.31; planes := 1 |}
  = onGround 59.94 30.31 (flights landed)
  /\ (0 <= planes {| lat := 59.94; lon := 30.31; planes := 1 |})%Z
  /\ distinctKeys (airportStars landed) = true.
Proof.
  apply (airport_counts_planes_on_its_ground HostMath.host [svo_led]
           [Frame 125.01; Frame 126; Frame 127.3; Frame 130] landed
           {| lat := 59.94; lon := 30.31; planes := 1 |}).
  - vm_compute. reflexivity.
  - vm_compute. auto.
Defined.

End AirportFacts.

(* ================================================================== *)
(** * The revealed prefix of the path *)
(* ================================================================== *)

Module RevealFacts.
Import JS Three Engine Samples Ledger.
Local Open Scope float_scope.

(** ** Stores into the buffer *)

Lemma store_nat_nth a : forall k v o,
  nth_error (store_nat a k v) o
  = if Nat.eqb o k && Nat.ltb k (List.length a)
    then Some (Math_fround v) else nth_error a o.
Proof.
  induction a as [|c a IH]; intros [|k] v [|o]; simpl;
    rewrite ?andb_false_r; try reflexivity.
  rewrite IH. reflexivity.
Qed.

Lemma Float32Array_set_nth a o v j :
  nth_error (Float32Array_set a o v) j
  = if (Z.of_nat j =? o)%Z && (o <? Z.of_nat (List.length a))%Z
    then Some (Math_fround v) else nth_error a j.
Proof.
  unfold Float32Array_set. destruct (o <? 0)%Z eqn:N.
  - apply Z.ltb_lt in N.
    destruct (Z.of_nat j =? o)%Z eqn:E; [apply Z.eqb_eq in E; lia|reflexivity].
  - apply Z.ltb_ge in N. rewrite store_nat_nth.
    destruct (Z.of_nat j =? o)%Z eqn:E.
    + apply Z.eqb_eq in E.
      replace (Nat.eqb j (Z.to_nat o)) with true
        by (symmetry; apply Nat.eqb_eq; lia).
      simpl. destruct (o <? Z.of_nat (List.length a))%Z eqn:L.
      * apply Z.ltb_lt in L.
        now replace (Nat.ltb (Z.to_nat o) (List.length a)) with true
          by (symmetry; apply Nat.ltb_lt; lia).
      * apply Z.ltb_ge in L.
        now replace (Nat.ltb (Z.to_nat o) (List.length a)) with false
          by (symmetry; apply Nat.ltb_ge; lia).
    + apply Z.eqb_neq in E.
      now replace (Nat.eqb j (Z.to_nat o)) with false
        by (symmetry; apply Nat.eqb_neq; lia).
Qed.

Lemma Float32Array_set_length a o v :
  List.length (Float32Array_set a o v) = List.length a.
Proof.
  unfold Float32Array_set. destruct (o <? 0)%Z; [reflexivity|].
  apply Reveal.store_nat_length.
Qed.

(** A float to which no store goes keeps its value. *)
Lemma applyStores_untouched ws : forall a j,
  Forall (fun w => fst w <> Z.of_nat j) ws ->
  nth_error (applyStores a ws) j = nth_error a j.
Proof.
  unfold applyStores.
  induction ws as [|w ws IH]; intros a j H; simpl; [reflexivity|].
  inversion H as [|? ? Hw Hws]; subst.
  rewrite IH by exact Hws. rewrite Float32Array_set_nth.
  destruct (Z.of_nat j =? fst w)%Z eqn:E; [apply Z.eqb_eq in E; congruence|].
  reflexivity.
Qed.

(** The float of a store holds the stored value, rounded to binary32,
    when no other store of the list goes to it. *)
Lemma applyStores_stored ws : forall a o v,
  NoDup (map fst ws) -> In (o, v) ws ->
  (0 <= o < Z.of_nat (List.length a))%Z ->
  nth_error (applyStores a ws) (Z.to_nat o) = Some (Math_fround v).
Proof.
  induction ws as [|w ws IH]; intros a o v ND Hin Ho; [destruct Hin|].
  simpl in ND. inversion ND as [|? ? Hw Hws]; subst.
  destruct Hin as [->|Hin].
  - change (applyStores a ((o, v) :: ws))
      with (applyStores (Float32Array_set a o v) ws).
    rewrite applyStores_untouched.
    + rewrite Float32Array_set_nth.
      replace (Z.of_nat (Z.to_nat o) =? o)%Z with true
        by (symmetry; apply Z.eqb_eq; lia).
      now replace (o <? Z.of_nat (List.length a))%Z with true
        by (symmetry; apply Z.ltb_lt; lia).
    + apply Forall_forall. intros w Hw' E. apply Hw. simpl.
      apply in_map_iff. exists w. split; [|exact Hw'].
      rewrite E. lia.
  - change (applyStores a (w :: ws))
      with (applyStores (Float32Array_set a (fst w) (snd w)) ws).
    apply IH; auto. now rewrite Float32Array_set_length.
Qed.

(** ** The stores of the loop *)

Lemma index_nat {A} (a : list A) (i : nat) :
  index a (Z.of_nat i) = nth_error a i.
Proof.
  unfold index. destruct (Z.of_nat i <? 0)%Z eqn:N;
    [apply Z.ltb_lt in N; lia|]. now rewrite Nat2Z.id.
Qed.

(** Every store of the loop is one of the six floats of a segment that
    the loop went through and that has an end point. *)
Lemma drawSegments_sound n : forall i0 pts ws,
  drawSegments n (Z.of_nat i0) pts = Normal ws ->
  forall w, In w ws ->
    exists i k,
      (i0 <= i < i0 + n)%nat /\ (k < 6)%nat
      /\ fst w = Z.of_nat (6 * i + k)
      /\ segmentValue pts i k = Some (snd w).
Proof.
  induction n as [|n IH]; intros i0 pts ws H w Hw; simpl in H.
  - inversion H; subst. destruct Hw.
  - replace (Z.of_nat i0 + 1)%Z with (Z.of_nat (S i0)) in H by lia.
    rewrite !index_nat in H.
    assert (Rest : forall ws', drawSegments n (Z.of_nat (S i0)) pts = Normal ws' ->
              In w ws' ->
              exists i k, (i0 <= i < i0 + S n)%nat /\ (k < 6)%nat
                /\ fst w = Z.of_nat (6 * i + k)
                /\ segmentValue pts i k = Some (snd w)).
    { intros ws' R Hin. destruct (IH _ _ _ R w Hin) as (i & k & Hi & Hk & E & V).
      exists i, k. repeat split; auto; lia. }
    destruct (nth_error pts (S i0)) as [q|] eqn:Eq; [|now apply (Rest ws)].
    destruct (nth_error pts i0) as [p|] eqn:Ep; [|discriminate].
    destruct (drawSegments n (Z.of_nat (S i0)) pts) as [ws'| |] eqn:R;
      simpl in H; try discriminate.
    inversion H; subst ws; clear H.
    assert (V : forall k, (k < 6)%nat ->
              segmentValue pts i0 k = nth_error [x p; y p; z p; x q; y q; z q] k)
      by (intros; unfold segmentValue; now rewrite Ep, Eq).
    destruct Hw as [<-|[<-|[<-|[<-|[<-|[<-|Hw]]]]]];
      [| | | | | |now apply (Rest ws')]; exists i0;
      [exists 0%nat|exists 1%nat|exists 2%nat|exists 3%nat|exists 4%nat
      |exists 5%nat];
      (split; [lia|split; [lia|split; [simpl; lia|rewrite V by lia; reflexivity]]]).
Qed.

(** Every segment that the loop went through and that has an end point
    is stored, float by float. *)
Lemma drawSegments_complete n : forall i0 pts ws,
  drawSegments n (Z.of_nat i0) pts = Normal ws ->
  forall i k, (i0 <= i < i0 + n)%nat -> (k < 6)%nat ->
    (S i < List.length pts)%nat ->
    exists v, segmentValue pts i k = Some v
              /\ In (Z.of_nat (6 * i + k), v) ws.
Proof.
  induction n as [|n IH]; intros i0 pts ws H i k Hi Hk Hlen; [lia|].
  simpl in H.
  replace (Z.of_nat i0 + 1)%Z with (Z.of_nat (S i0)) in H by lia.
  rewrite !index_nat in H.
  destruct (Nat.eq_dec i i0) as [->|Ne].
  - destruct (nth_error pts (S i0)) as [q|] eqn:Eq;
      [|apply nth_error_None in Eq; lia].
    destruct (nth_error pts i0) as [p|] eqn:Ep; [|discriminate].
    destruct (drawSegments n (Z.of_nat (S i0)) pts) as [ws'| |];
      simpl in H; try discriminate.
    inversion H; subst ws; clear H.
    unfold segmentValue. rewrite Ep, Eq.
    destruct (nth_error [x p; y p; z p; x q; y q; z q] k) as [v|] eqn:V;
      [|apply nth_error_None in V; simpl in V; lia].
    exists v. split; [reflexivity|].
    do 6 (destruct k as [|k];
          [injection V as <-; cbn [In];
           repeat first [ solve [left; apply f_equal2; [lia|reflexivity]]
                        | right ]|]).
    lia.
  - assert (Rest : forall ws', drawSegments n (Z.of_nat (S i0)) pts = Normal ws' ->
              exists v, segmentValue pts i k = Some v
                        /\ In (Z.of_nat (6 * i + k), v) ws')
      by (intros ws' R; apply (IH _ _ _ R); auto; lia).
    destruct (nth_error pts (S i0)) as [q|]; [|now apply Rest].
    destruct (nth_error pts i0) as [p|]; [|discriminate].
    destruct (drawSegments n (Z.of_nat (S i0)) pts) as [ws'| |];
      simpl in H; try discriminate.
    inversion H; subst ws; clear H.
    destruct (Rest ws' eq_refl) as (v & V & Hin).
    exists v. split; [exact V|]. simpl. auto 10.
Qed.

(** No two stores of the loop go to the same float. *)
Lemma drawSegments_NoDup n : forall i0 pts ws,
  drawSegments n (Z.of_nat i0) pts = Normal ws -> NoDup (map fst ws).
Proof.
  induction n as [|n IH]; intros i0 pts ws H; simpl in H.
  - inversion H. constructor.
  - replace (Z.of_nat i0 + 1)%Z with (Z.of_nat (S i0)) in H by lia.
    rewrite !index_nat in H.
    destruct (nth_error pts (S i0)) as [q|]; [|now apply (IH (S i0) pts)].
    destruct (nth_error pts i0) as [p|]; [|discriminate].
    destruct (drawSegments n (Z.of_nat (S i0)) pts) as [ws'| |] eqn:R;
      simpl in H; try discriminate.
    inversion H; subst ws; clear H.
    assert (Far : forall o, In o (map fst ws') -> (Z.of_nat (6 * S i0) <= o)%Z).
    { intros o Ho. apply in_map_iff in Ho as (w & <- & Hw).
      destruct (drawSegments_sound _ _ _ _ R w Hw) as (i & k & Hi & _ & -> & _).
      lia. }
    specialize (IH _ _ _ R). simpl.
    repeat (constructor;
            [simpl; intros Hin;
             repeat (destruct Hin as [Hin|Hin]; [lia|]);
             apply Far in Hin; lia|]).
    exact IH.
Qed.

(** ** The invariant of [update] *)

Lemma update_draws ct f f' :
  update ct f = Normal f' ->
  (curvePoints f' = curvePoints f /\ positions f' = positions f
   /\ dynamicSegmentIndex f' = dynamicSegmentIndex f)
  \/ exists z ws,
       (dynamicSegmentIndex f < z)%Z
       /\ drawSegments (Z.to_nat (z - dynamicSegmentIndex f + 1))
                       (dynamicSegmentIndex f) (curvePoints f) = Normal ws
       /\ curvePoints f' = curvePoints f
       /\ positions f' = applyStores (positions f) ws
       /\ dynamicSegmentIndex f' = z.
Proof.
  unfold update; cbv zeta.
  destruct (Reveal.added_fields ct f) as (_ & _ & Pts & Pos & Idx).
  destruct (dynamicPathAdded (added ct f) && _);
    [|intros [= <-]; left; auto].
  rewrite Idx, Pts, Pos.
  destruct (floored_gt _ _) eqn:G; [|intros [= <-]; left; auto].
  destruct (targetSegmentIndex ct (added ct f)) as [| |z] eqn:T.
  - discriminate G.
  - unfold drawLoop; cbv zeta. destruct (drawSegments _ _ _); discriminate.
  - simpl in G. apply Z.ltb_lt in G. unfold drawLoop; cbv zeta.
    destruct (z <? 2 ^ 53)%Z;
      [|destruct (drawSegments _ _ _); discriminate].
    destruct (drawSegments _ _ _) as [ws| |] eqn:D; try discriminate.
    simpl. intros [= <-]. right. exists z, ws. simpl. auto.
Qed.

Lemma update_prefixDrawn ct f f' :
  update ct f = Normal f' -> well_formed f -> prefixDrawn f -> prefixDrawn f'.
Proof.
  intros U [I0 Len] P.
  destruct (update_draws _ _ _ U)
    as [(Pts & Pos & Idx)|(z & ws & Lt & D & Pts & Pos & Idx)];
    intros i Hi; rewrite Pts in Hi; specialize (P i Hi).
  - unfold revealed, drawn, blank in *. rewrite Idx, Pos, Pts. exact P.
  - remember (Z.to_nat (dynamicSegmentIndex f)) as i0 eqn:Ei0.
    assert (E0 : dynamicSegmentIndex f = Z.of_nat i0) by lia.
    rewrite E0 in D.
    remember (Z.to_nat (z - Z.of_nat i0 + 1)) as n eqn:En.
    destruct (le_lt_dec i0 i) as [Lo|Lo];
      [destruct (le_lt_dec (i0 + n) i) as [Hi'|Hi']|].
    + (* beyond the target: still blank *)
      assert (R : revealed f i = false)
        by (unfold revealed; apply andb_false_iff; right;
            apply Z.leb_gt; lia).
      assert (R' : revealed f' i = false)
        by (unfold revealed; apply andb_false_iff; right;
            apply Z.leb_gt; lia).
      rewrite R in P. rewrite R'. intros k Hk. rewrite Pos.
      rewrite applyStores_untouched; [now apply P|].
      apply Forall_forall. intros w Hw E.
      destruct (drawSegments_sound _ _ _ _ D w Hw) as (j & k' & Hj & Hk' & F & _).
      lia.
    + (* from the old index to the target: stored *)
      assert (R' : revealed f' i = true)
        by (unfold revealed; apply andb_true_iff; split;
            [apply Z.ltb_lt|apply Z.leb_le]; lia).
      rewrite R'. intros k Hk. rewrite Pos, Pts.
      destruct (drawSegments_complete _ _ _ _ D i k (conj Lo Hi') Hk Hi)
        as (v & V & Hin).
      rewrite V. cbn [option_map].
      rewrite <- (Nat2Z.id (6 * i + k)).
      apply applyStores_stored with (v := v);
        [now apply (drawSegments_NoDup _ _ _ _ D)|exact Hin|lia].
    + (* below the old index: drawn before, and not touched *)
      assert (R : revealed f i = true)
        by (unfold revealed; apply andb_true_iff; split;
            [apply Z.ltb_lt|apply Z.leb_le]; lia).
      assert (R' : revealed f' i = true)
        by (unfold revealed; apply andb_true_iff; split;
            [apply Z.ltb_lt|apply Z.leb_le]; lia).
      rewrite R in P. rewrite R'. intros k Hk. rewrite Pos, Pts.
      rewrite applyStores_untouched; [now apply P|].
      apply Forall_forall. intros w Hw E.
      destruct (drawSegments_sound _ _ _ _ D w Hw) as (j & k' & Hj & Hk' & F & _).
      lia.
Qed.

Lemma updates_prefixDrawn cts : forall f f',
  updates cts f = Normal f' -> well_formed f -> prefixDrawn f ->
  well_formed f' /\ prefixDrawn f'.
Proof.
  induction cts as [|ct cts IH]; intros f f' H W P; simpl in H.
  - inversion H; subst. auto.
  - destruct (update ct f) as [f1| |] eqn:U; simpl in H; try discriminate.
    apply (IH _ _ H).
    + now apply (Reveal.update_well_formed _ _ _ U).
    + now apply (update_prefixDrawn _ _ _ U).
Qed.

Lemma Flight_new_prefixDrawn M d : prefixDrawn (Flight_new M d).
Proof.
  intros i Hi. destruct (Reveal.Flight_new_well_formed M d) as [[_ L] L51].
  rewrite L51 in Hi, L.
  replace (revealed (Flight_new M d) i) with false by reflexivity.
  intros k Hk.
  assert (E : positions (Flight_new M d) = repeat 0 300).
  { unfold Flight_new; cbv zeta; cbn [positions]. unfold createDynamicPath.
    now rewrite Reveal.calculateCurvePoints_length. }
  rewrite E. apply nth_error_repeat. lia.
Qed.

(** X5: whatever the frames, as long as [update] returns: of the fifty
    segments of a flight's buffer, those up to [dynamicSegmentIndex]
    (once it has left 0) hold the coordinates of their two curve
    points, rounded to binary32, and all the others still hold the
    zeros the buffer was created with, which the renderer draws as
    segments of no length at the centre of the globe. *)
Theorem revealed_prefix_is_drawn M d cts f :
  updates cts (Flight_new M d) = Normal f ->
  forall i k, (i < 50)%nat -> (k < 6)%nat ->
    nth_error (positions f) (6 * i + k) = expected f i k.
Proof.
  intros H i k Hi Hk.
  destruct (Reveal.Flight_new_well_formed M d) as [W L51].
  destruct (updates_prefixDrawn _ _ _ H W (Flight_new_prefixDrawn M d))
    as [W' P].
  destruct (Reveal.updates_well_formed _ _ _ H W) as [_ Pts].
  assert (Hlen : (S i < List.length (curvePoints f))%nat)
    by (rewrite Pts, L51; lia).
  specialize (P i Hlen). unfold expected.
  destruct (revealed f i); now apply P.
Qed.

(** The run with a step back in time: the fourth float of segment 10,
    which is drawn at its end. *)
Lemma revealed_prefix_witness :
  nth_error (positions back_and_forth) (6 * 10 + 3)
  = expected back_and_forth 10 3.
Proof.
  apply (revealed_prefix_is_drawn HostMath.host svo_led
           [36028.8; 36288; 36100; 36656.64] back_and_forth).
  - vm_compute. reflexivity.
  - lia.
  - lia.
Defined.

End RevealFacts.

(* ================================================================== *)
(** * The two passes of a frame *)
(* ================================================================== *)

Module FrameFacts.
Import JS Three Engine Samples Ledger.
Local Open Scope float_scope.

(** ** The slots of the instance matrix *)

Lemma updatePlane_slot ct f slot airports :
  snd (fst (updatePlane ct f slot airports))
  = if enRoute (progress ct f) then PlaneMatrix (data f) (progress ct f)
    else slot.
Proof.
  unfold updatePlane; cbv zeta.
  destruct (enRoute (progress ct f)); [|reflexivity].
  destruct (_ && _); [reflexivity|]. destruct (_ && _); reflexivity.
Qed.

Lemma updatePlanes_slot ct fs : forall ms airports i f m,
  nth_error fs i = Some f -> nth_error ms i = Some m ->
  nth_error (snd (fst (updatePlanes ct fs ms airports))) i
  = Some (if enRoute (progress ct f)
          then PlaneMatrix (data f) (progress ct f) else m).
Proof.
  induction fs as [|g fs IH]; intros ms airports i f m Hf Hm.
  - destruct i; discriminate.
  - simpl.
    pose proof (updatePlane_slot ct g (hd Unwritten ms) airports) as Hs.
    destruct (updatePlane ct g (hd Unwritten ms) airports) as [[g' slot'] a'].
    specialize (IH (tl ms) a').
    destruct (updatePlanes ct fs (tl ms) a') as [[fs' ms'] a''].
    destruct ms as [|m0 ms]; [destruct i; discriminate|].
    destruct i as [|i]; simpl in *.
    + injection Hf as ->. injection Hm as ->. now rewrite Hs.
    + now apply IH.
Qed.

Lemma updatePlanes_ownSlot ct fs : forall ms airports,
  Forall2 ownSlot (map data fs) ms ->
  Forall2 ownSlot (map data fs) (snd (fst (updatePlanes ct fs ms airports))).
Proof.
  induction fs as [|g fs IH]; intros ms airports H; simpl.
  - exact H.
  - pose proof (updatePlane_slot ct g (hd Unwritten ms) airports) as Hs.
    destruct (updatePlane ct g (hd Unwritten ms) airports) as [[g' slot'] a'].
    specialize (IH (tl ms) a').
    destruct (updatePlanes ct fs (tl ms) a') as [[fs' ms'] a''].
    inversion H as [|d m ds ms0 Hd Hds]; subst. simpl in *.
    constructor; [|now apply IH].
    rewrite Hs. destruct (enRoute (progress ct g)) eqn:E; [|exact Hd].
    right. eauto.
Qed.

Lemma updateInstancedPlanes_ownSlot ct s :
  Forall2 ownSlot (map data (flights s)) (instanceMatrix s) ->
  Forall2 ownSlot (map data (flights s))
          (instanceMatrix (updateInstancedPlanes ct s)).
Proof.
  unfold updateInstancedPlanes.
  destruct (flights s) as [|f fs] eqn:E; intros H; [exact H|].
  pose proof (updatePlanes_ownSlot ct (f :: fs) (instanceMatrix s)
                (airportStars s) H) as P.
  destruct (updatePlanes _ _ _ _) as [[fs' ms'] a']. exact P.
Qed.

Lemma run_ownSlot es : forall s s',
  run es s = Normal s' ->
  Forall2 ownSlot (map data (flights s)) (instanceMatrix s) ->
  Forall2 ownSlot (map data (flights s')) (instanceMatrix s').
Proof.
  induction es as [|[r|v] es IH]; intros s s' H OK; simpl in H.
  - inversion H; subst. exact OK.
  - destruct (animate r s) as [s1| |] eqn:A; simpl in H; try discriminate.
    apply (IH _ _ H).
    rewrite (LedgerFacts.run_data [Frame r] s s1) by (simpl; now rewrite A).
    unfold animate in A; cbv zeta in A.
    destruct (updateAll _ _) as [fs| |]; simpl in A; try discriminate.
    inversion A; subst s1; simpl.
    now apply updateInstancedPlanes_ownSlot.
  - apply (IH _ _ H). exact OK.
Qed.

Lemma Forall2_nth {A B} (R : A -> B -> Prop) l : forall l' i b,
  Forall2 R l l' -> nth_error l' i = Some b ->
  exists a, nth_error l i = Some a /\ R a b.
Proof.
  induction l as [|a l IH]; intros l' i b H Hb; inversion H; subst.
  - destruct i; discriminate.
  - destruct i as [|i]; simpl in *.
    + injection Hb as <-. eauto.
    + eauto.
Qed.

(** X6: what a frame does to a slot of the instance matrix.  The slot
    of a flight that is en route at the frame's time receives the matrix
    of that flight at its progress; the slot of any other flight keeps
    the matrix it had, whatever it is. *)
Theorem slot_is_written_only_en_route ct s i f m :
  nth_error (flights s) i = Some f ->
  nth_error (instanceMatrix s) i = Some m ->
  nth_error (instanceMatrix (updateInstancedPlanes ct s)) i
  = Some (if enRoute (progress ct f)
          then PlaneMatrix (data f) (progress ct f) else m).
Proof.
  intros Hf Hm. unfold updateInstancedPlanes.
  destruct (flights s) as [|g fs] eqn:E; [destruct i; discriminate|].
  pose proof (updatePlanes_slot ct (g :: fs) (instanceMatrix s)
                (airportStars s) i f m Hf Hm) as P.
  destruct (updatePlanes _ _ _ _) as [[fs' ms'] a']. exact P.
Qed.

(** The frame at simulated second 40000, after the flight's end, on the
    state in which the flight has landed. *)
Lemma slot_witness :
  nth_error (instanceMatrix (updateInstancedPlanes 40000 landed)) 0
  = Some (if enRoute (progress 40000 (hd fresh (flights landed)))
          then PlaneMatrix (data (hd fresh (flights landed)))
                           (progress 40000 (hd fresh (flights landed)))
          else hd Unwritten (instanceMatrix landed)).
Proof.
  apply (slot_is_written_only_en_route 40000 landed 0);
    vm_compute; reflexivity.
Defined.

(** X7: in every state that a run reaches from a loaded dataset, each
    slot of the instance matrix is either untouched or holds the matrix
    of the flight with the same index, at a progress between 0 and 1:
    no slot ever shows another flight, or a position outside the
    flight. *)
Theorem slots_hold_their_own_flight M rows es s i m :
  run es (loadFlightData M rows) = Normal s ->
  nth_error (instanceMatrix s) i = Some m ->
  exists f, nth_error (flights s) i = Some f /\ ownSlot (data f) m.
Proof.
  intros Run Hm.
  assert (OK : Forall2 ownSlot (map data (flights s)) (instanceMatrix s)).
  { apply (run_ownSlot es _ _ Run). unfold loadFlightData; cbv zeta; simpl.
    induction (map (Flight_new M) _) as [|f fs IH]; simpl;
      constructor; [now left|exact IH]. }
  destruct (Forall2_nth _ _ _ _ _ OK Hm) as (d & Hd & Own).
  rewrite nth_error_map in Hd.
  destruct (nth_error (flights s) i) as [f|]; [|discriminate].
  injection Hd as <-. eauto.
Qed.

Lemma slots_own_witness :
  exists f, nth_error (flights landed) 0 = Some f
            /\ ownSlot (data f) (hd Unwritten (instanceMatrix landed)).
Proof.
  apply (slots_hold_their_own_flight HostMath.host [svo_led]
           [Frame 125.01; Frame 126; Frame 127.3; Frame 130] landed 0);
    vm_compute; reflexivity.
Defined.

(** ** The dynamic path is added once *)

Lemma update_added ct f f' :
  update ct f = Normal f' ->
  startTime f' = startTime f
  /\ dynamicPathAdded f'
     = dynamicPathAdded f || (startTime f <=? ct).
Proof.
  intros [[-> _]|(z & ws & _ & _ & _ & ->)]%Reveal.update_returns;
    unfold added; cbn [startTime dynamicPathAdded setPath];
    destruct (startTime f <=? ct) eqn:S, (dynamicPathAdded f) eqn:D;
    simpl; rewrite ?D; auto.
Qed.

(** X8: the dynamic path of a flight is in the scene after a sequence
    of calls of [update] exactly when it was there before or one of the
    calls came at or after the start time, be it after the end of the
    flight; it is never taken out again. *)
Theorem path_is_added_at_first_call_after_start cts : forall f f',
  updates cts f = Normal f' ->
  dynamicPathAdded f'
  = dynamicPathAdded f || existsb (fun ct => startTime f <=? ct) cts.
Proof.
  induction cts as [|ct cts IH]; intros f f' H; simpl in H.
  - inversion H; subst. simpl. now rewrite orb_false_r.
  - destruct (update ct f) as [f1| |] eqn:U; simpl in H; try discriminate.
    destruct (update_added _ _ _ U) as [St Ad].
    rewrite (IH _ _ H), St, Ad. simpl. now rewrite orb_assoc.
Qed.

(** Two calls long after the end of the flight: the path is added, and
    no segment of it is ever revealed. *)
Lemma path_added_witness :
  dynamicPathAdded (returned (updates [50000; 50001] fresh) fresh)
  = dynamicPathAdded fresh
    || existsb (fun ct => startTime fresh <=? ct) [50000; 50001].
Proof.
  apply (path_is_added_at_first_call_after_start [50000; 50001] fresh).
  vm_compute. reflexivity.
Defined.

(** ** The passes do not interfere *)

Lemma flightAfterTick_cases ct f :
  flightAfterTick ct f
  = if departureWindow (progress ct f) && negb (departed f) then setDeparted f
    else if arrivalWindow (progress ct f) && negb (arrived f) then setArrived f
    else f.
Proof.
  unfold flightAfterTick. rewrite Occupancy.updatePlane_cases. cbv zeta.
  repeat match goal with |- context [if ?b then _ else _] => destruct b end;
    reflexivity.
Qed.

Lemma flightAfterTick_view ct f g :
  occupancyView f = occupancyView g ->
  occupancyView (flightAfterTick ct f) = occupancyView (flightAfterTick ct g).
Proof.
  unfold occupancyView. intros [= D S Du De Ar].
  rewrite !flightAfterTick_cases. unfold progress. rewrite S, Du, De, Ar.
  repeat match goal with |- context [if ?b then _ else _] => destruct b end;
    simpl; congruence.
Qed.

Lemma update_setDeparted ct f :
  update ct (setDeparted f)
  = bind (update ct f) (fun f' => Normal (setDeparted f')).
Proof.
  unfold update, added, targetSegmentIndex; cbv zeta; simpl.
  destruct ((startTime f <=? ct) && negb (dynamicPathAdded f)); simpl;
    repeat match goal with
      | |- context [if ?b then _ else _] => destruct b; simpl
      end; try reflexivity;
    destruct (drawLoop _ _ _); simpl; try reflexivity;
    destruct (Math_floor _); reflexivity.
Qed.

Lemma update_setArrived ct f :
  update ct (setArrived f)
  = bind (update ct f) (fun f' => Normal (setArrived f')).
Proof.
  unfold update, added, targetSegmentIndex; cbv zeta; simpl.
  destruct ((startTime f <=? ct) && negb (dynamicPathAdded f)); simpl;
    repeat match goal with
      | |- context [if ?b then _ else _] => destruct b; simpl
      end; try reflexivity;
    destruct (drawLoop _ _ _); simpl; try reflexivity;
    destruct (Math_floor _); reflexivity.
Qed.

(** X9: the two passes of a frame commute on every flight: setting the
    occupancy flags and then calling [update], as [animate] does, gives
    what calling [update] first and setting the flags afterwards gives,
    including when [update] throws or does not return. *)
Theorem passes_of_a_frame_commute ct f :
  update ct (flightAfterTick ct f)
  = bind (update ct f) (fun f' => Normal (flightAfterTick ct f')).
Proof.
  assert (V : forall f', update ct f = Normal f' ->
            flightAfterTick ct f'
            = if departureWindow (progress ct f) && negb (departed f)
              then setDeparted f'
              else if arrivalWindow (progress ct f) && negb (arrived f)
                   then setArrived f' else f').
  { intros f' U. apply LedgerFacts.update_occupancyView in U.
    unfold occupancyView in U. injection U as _ S Du De Ar.
    rewrite flightAfterTick_cases. unfold progress.
    now rewrite S, Du, De, Ar. }
  rewrite flightAfterTick_cases.
  destruct (departureWindow (progress ct f) && negb (departed f));
    [|destruct (arrivalWindow (progress ct f) && negb (arrived f))].
  - rewrite update_setDeparted.
    destruct (update ct f) as [f'| |] eqn:U; simpl; try reflexivity.
    now rewrite (V f' eq_refl).
  - rewrite update_setArrived.
    destruct (update ct f) as [f'| |] eqn:U; simpl; try reflexivity.
    now rewrite (V f' eq_refl).
  - destruct (update ct f) as [f'| |] eqn:U; simpl; try reflexivity.
    now rewrite (V f' eq_refl).
Qed.

(** ** Occupancy does not depend on the paths *)

Lemma updatePlane_view ct f g slot airports :
  occupancyView f = occupancyView g ->
  snd (fst (updatePlane ct f slot airports))
  = snd (fst (updatePlane ct g slot airports))
  /\ snd (updatePlane ct f slot airports)
     = snd (updatePlane ct g slot airports).
Proof.
  unfold occupancyView. intros [= D S Du De Ar].
  unfold updatePlane, progress; cbv zeta. rewrite D, S, Du, De, Ar.
  repeat match goal with |- context [if ?b then _ else _] => destruct b end;
    simpl; auto.
Qed.

Lemma updatePlanes_view ct fs : forall gs ms airports,
  map occupancyView fs = map occupancyView gs ->
  snd (fst (updatePlanes ct fs ms airports))
  = snd (fst (updatePlanes ct gs ms airports))
  /\ snd (updatePlanes ct fs ms airports)
     = snd (updatePlanes ct gs ms airports).
Proof.
  induction fs as [|f fs IH]; intros [|g gs] ms airports E; simpl in E;
    try discriminate; [simpl; auto|].
  injection E as E1 E2 E3 E4 E5 Efs.
  assert (Ev : occupancyView f = occupancyView g)
    by (unfold occupancyView; congruence).
  simpl.
  destruct (updatePlane_view ct f g (hd Unwritten ms) airports Ev) as [Hs Ha].
  destruct (updatePlane ct f (hd Unwritten ms) airports) as [[f' slot'] a'].
  destruct (updatePlane ct g (hd Unwritten ms) airports) as [[g' slot2] a2].
  simpl in Hs, Ha. subst slot2 a2.
  specialize (IH gs (tl ms) a' Efs).
  destruct (updatePlanes ct fs (tl ms) a') as [[fs' ms'] a''].
  destruct (updatePlanes ct gs (tl ms) a') as [[gs' ms2] a3].
  simpl in *. destruct IH as [-> ->]. auto.
Qed.

Lemma updateInstancedPlanes_view ct s t :
  sameOccupancy s t ->
  sameOccupancy (updateInstancedPlanes ct s) (updateInstancedPlanes ct t).
Proof.
  intros (A & I & V). unfold sameOccupancy.
  rewrite !Occupancy.updateInstancedPlanes_flights, !map_map.
  assert (Vs : map (fun f => occupancyView (flightAfterTick ct f)) (flights s)
               = map (fun f => occupancyView (flightAfterTick ct f)) (flights t)).
  { revert V. generalize (flights t). induction (flights s) as [|f fs IH];
      intros [|g gs] E; simpl in E; try discriminate; [reflexivity|].
    simpl. f_equal.
    - apply flightAfterTick_view. unfold occupancyView in *. congruence.
    - apply IH. now injection E. }
  unfold updateInstancedPlanes.
  destruct (flights s) as [|f fs] eqn:Es; destruct (flights t) as [|g gs] eqn:Et;
    try discriminate V.
  - auto.
  - destruct (updatePlanes_view ct (f :: fs) (g :: gs) (instanceMatrix s)
                (airportStars s) V) as [Hm Ha].
    rewrite I, A in Hm, Ha.
    rewrite A, I.
    destruct (updatePlanes ct (f :: fs) _ _) as [[fs' ms'] a'].
    destruct (updatePlanes ct (g :: gs) _ _) as [[gs' ms2] a2].
    simpl in *. auto.
Qed.

Lemma run_sameOccupancy es : forall s s' t,
  run es s = Normal s' -> sameOccupancy s t ->
  sameOccupancy s' (ticks (frameTimes es s) t).
Proof.
  induction es as [|[r|v] es IH]; intros s s' t H Sim; simpl in H.
  - inversion H; subst. exact Sim.
  - destruct (animate r s) as [s1| |] eqn:A; simpl in H; try discriminate.
    simpl. rewrite (Clock.frameTimes_acceleration es s s1).
    + apply (IH _ _ _ H).
      apply (updateInstancedPlanes_view (simTime r s)) in Sim.
      unfold animate in A; cbv zeta in A.
      destruct (updateAll _ _) as [fs| |] eqn:U; simpl in A; try discriminate.
      inversion A; subst s1. destruct Sim as (Sa & Si & Sv).
      unfold sameOccupancy; simpl. repeat split; auto.
      now rewrite (LedgerFacts.updateAll_occupancyView _ _ _ U).
    + symmetry. apply (Clock.run_acceleration [Frame r] s s1).
      simpl. now rewrite A.
  - simpl. apply (IH _ _ _ H). exact Sim.
Qed.

(** X10: the airports, the instance matrix and the occupancy flags that a
    run of the page reaches are those of the occupancy pass alone,
    applied at the simulated times of the run's frames: what
    [Flight.update] does to the paths never reaches them. *)
Theorem occupancy_is_independent_of_the_paths es s s' :
  run es s = Normal s' ->
  sameOccupancy s' (ticks (frameTimes es s) s).
Proof.
  intros H. apply (run_sameOccupancy es s s' s H).
  unfold sameOccupancy. auto.
Qed.

Lemma occupancy_independent_witness :
  sameOccupancy landed
    (ticks (frameTimes [Frame 125.01; Frame 126; Frame 127.3; Frame 130]
                       one_flight) one_flight).
Proof.
  apply (occupancy_is_independent_of_the_paths
           [Frame 125.01; Frame 126; Frame 127.3; Frame 130] one_flight).
  vm_compute. reflexivity.
Defined.

End FrameFacts.

(* ================================================================== *)
(** * The toggle buttons *)
(* ================================================================== *)

Module LinesFacts.
Import JS Three Engine Samples Ledger Lines MoreSamples.
Local Open Scope float_scope.

Lemma updateLines_length ct fs : forall ls,
  List.length (updateLines ct fs ls) = List.length ls.
Proof.
  induction fs as [|f fs IH]; intros [|l ls]; simpl; auto.
Qed.

Lemma updateLines_nth ct fs : forall ls i f l,
  nth_error fs i = Some f -> nth_error ls i = Some l ->
  nth_error (updateLines ct fs ls) i = Some (updateLine ct f l).
Proof.
  induction fs as [|g fs IH]; intros [|l0 ls] [|i] f l Hf Hl;
    simpl in *; try discriminate.
  - now injection Hf as ->; injection Hl as ->.
  - now apply IH.
Qed.

Lemma updateLines_pathVisible ct fs : forall ls,
  map pathVisible (updateLines ct fs ls) = map pathVisible ls.
Proof.
  induction fs as [|f fs IH]; intros [|l ls]; simpl; auto.
  rewrite IH. f_equal. unfold updateLine. now destruct (_ && _).
Qed.

Lemma updateLines_dynamic ct fs (v : bool) : forall ls,
  (v = true -> Forall (fun l => dynamicPathVisible l = true) ls) ->
  v = true ->
  Forall (fun l => dynamicPathVisible l = true) (updateLines ct fs ls).
Proof.
  induction fs as [|f fs IH]; intros [|l ls] H V; simpl; auto.
  specialize (H V). inversion H as [|? ? Hl Hls]; subst.
  constructor; [|apply IH; auto].
  unfold updateLine. now destruct (_ && _).
Qed.

(** What one action keeps. *)
Lemma act_lines a s p s' p' :
  act a (s, p) = Normal (s', p') ->
  Forall (fun l => pathVisible l = areCompleteLinesVisible p) (lines p) ->
  (areDynamicLinesVisible p = true ->
   Forall (fun l => dynamicPathVisible l = true) (lines p)) ->
  Forall (fun l => pathVisible l = areCompleteLinesVisible p') (lines p')
  /\ (areDynamicLinesVisible p' = true ->
      Forall (fun l => dynamicPathVisible l = true) (lines p'))
  /\ areCompleteLinesVisible p'
     = xorb (areCompleteLinesVisible p) (Nat.odd (completeClicks [a])).
Proof.
  intros H C D. destruct a as [[r|v]| |]; simpl in H.
  - destruct (animate r s) as [s1| |]; simpl in H; try discriminate.
    injection H as <- <-. simpl. split; [|split].
    + apply Forall_forall. intros l Hl.
      apply (in_map pathVisible) in Hl.
      rewrite updateLines_pathVisible in Hl.
      apply in_map_iff in Hl as (l0 & <- & Hl0).
      rewrite Forall_forall in C. now apply C.
    + intros V. now apply (updateLines_dynamic _ _ true); auto.
    + now rewrite xorb_false_r.
  - injection H as <- <-. split; [|split]; auto.
    simpl. now rewrite xorb_false_r.
  - injection H as <- <-. simpl. split; [|split].
    + apply Forall_forall. intros l Hl.
      apply in_map_iff in Hl as (l0 & <- & _). reflexivity.
    + intros V. specialize (D V). apply Forall_forall. intros l Hl.
      apply in_map_iff in Hl as (l0 & <- & Hl0). simpl.
      rewrite Forall_forall in D. now apply D.
    + now destruct (areCompleteLinesVisible p).
  - injection H as <- <-. simpl. split; [|split].
    + apply Forall_forall. intros l Hl.
      apply in_map_iff in Hl as (l0 & <- & Hl0). simpl.
      rewrite Forall_forall in C. now apply C.
    + intros V. apply Forall_forall. intros l Hl.
      apply in_map_iff in Hl as (l0 & <- & _). exact V.
    + now rewrite xorb_false_r.
Qed.

Lemma completeClicks_cons a l :
  Nat.odd (completeClicks (a :: l))
  = xorb (Nat.odd (completeClicks [a])) (Nat.odd (completeClicks l)).
Proof.
  unfold completeClicks. simpl.
  destruct a as [e| |]; simpl List.length; try reflexivity.
  rewrite Nat.odd_succ, <- Nat.negb_odd.
  now destruct (Nat.odd _).
Qed.

Lemma acts_lines l : forall s p s' p',
  acts l (s, p) = Normal (s', p') ->
  Forall (fun ln => pathVisible ln = areCompleteLinesVisible p) (lines p) ->
  (areDynamicLinesVisible p = true ->
   Forall (fun ln => dynamicPathVisible ln = true) (lines p)) ->
  Forall (fun ln => pathVisible ln = areCompleteLinesVisible p') (lines p')
  /\ (areDynamicLinesVisible p' = true ->
      Forall (fun ln => dynamicPathVisible ln = true) (lines p'))
  /\ areCompleteLinesVisible p'
     = xorb (areCompleteLinesVisible p) (Nat.odd (completeClicks l)).
Proof.
  induction l as [|a l IH]; intros s p s' p' H C D.
  - simpl in H. injection H as <- <-. split; [|split]; auto.
    simpl. now rewrite xorb_false_r.
  - change (acts (a :: l) (s, p)) with (bind (act a (s, p)) (acts l)) in H.
    destruct (act a (s, p)) as [[s1 p1]| |] eqn:A; simpl in H;
      try discriminate.
    destruct (act_lines _ _ _ _ _ A C D) as (C1 & D1 & F1).
    destruct (IH _ _ _ _ H C1 D1) as (C' & D' & F').
    split; [|split]; auto.
    rewrite F', F1, (completeClicks_cons a l).
    now destruct (areCompleteLinesVisible p), (Nat.odd (completeClicks [a])),
                 (Nat.odd (completeClicks l)).
Qed.

Lemma initialPanel_lines fs :
  Forall (fun ln => pathVisible ln = false /\ dynamicPathVisible ln = true)
         (lines (initialPanel fs)).
Proof.
  simpl. induction fs; simpl; constructor; auto.
Qed.

(** X11: the complete lines follow their button.  After any sequence of
    frames, slider inputs and clicks, every complete line is visible
    exactly when the variable of the button says so, and the variable
    is true exactly after an odd number of clicks on "Toggle Complete
    Lines": no frame ever shows or hides a complete line. *)
Theorem complete_lines_follow_their_button l s s' p' :
  acts l (s, initialPanel (flights s)) = Normal (s', p') ->
  Forall (fun ln => pathVisible ln = areCompleteLinesVisible p') (lines p')
  /\ areCompleteLinesVisible p' = Nat.odd (completeClicks l).
Proof.
  intros H.
  destruct (acts_lines l _ _ _ _ H) as (C & _ & F).
  - eapply Forall_impl; [|apply initialPanel_lines]. now intros ln [-> _].
  - intros _. eapply Forall_impl; [|apply initialPanel_lines].
    now intros ln [_ ->].
  - split; [exact C|]. rewrite F. reflexivity.
Qed.

Lemma complete_lines_witness :
  Forall (fun ln => pathVisible ln = true)
         [ {| pathVisible := true; dynamicPathVisible := true |} ]
  /\ true = Nat.odd (completeClicks
                       [ToggleCompleteLines; Engine (Frame 125.01);
                        ToggleCompleteLines; ToggleCompleteLines]).
Proof.
  apply (complete_lines_follow_their_button
           [ToggleCompleteLines; Engine (Frame 125.01);
            ToggleCompleteLines; ToggleCompleteLines]
           one_flight
           (returnedState (run [Frame 125.01] one_flight) one_flight)
           {| areCompleteLinesVisible := true;
              areDynamicLinesVisible := true;
              lines := [ {| pathVisible := true;
                            dynamicPathVisible := true |} ] |}).
  vm_compute. reflexivity.
Defined.

(** X12: while the variable of "Toggle Dynamic Lines" is true, every
    dynamic line is visible, after any sequence of frames, slider
    inputs and clicks. *)
Theorem dynamic_lines_are_visible_when_switched_on l s s' p' :
  acts l (s, initialPanel (flights s)) = Normal (s', p') ->
  areDynamicLinesVisible p' = true ->
  Forall (fun ln => dynamicPathVisible ln = true) (lines p').
Proof.
  intros H.
  destruct (acts_lines l _ _ _ _ H) as (_ & D & _); [| |exact D].
  - eapply Forall_impl; [|apply initialPanel_lines]. now intros ln [-> _].
  - intros _. eapply Forall_impl; [|apply initialPanel_lines].
    now intros ln [_ ->].
Qed.

Lemma dynamic_lines_witness :
  Forall (fun ln => dynamicPathVisible ln = true)
         [ {| pathVisible := false; dynamicPathVisible := true |} ].
Proof.
  apply (dynamic_lines_are_visible_when_switched_on
           [ToggleDynamicLines; Engine (Frame 125.01); ToggleDynamicLines]
           one_flight
           (returnedState (run [Frame 125.01] one_flight) one_flight)
           {| areCompleteLinesVisible := false;
              areDynamicLinesVisible := true;
              lines := [ {| pathVisible := false;
                            dynamicPathVisible := true |} ] |}).
  - vm_compute. reflexivity.
  - reflexivity.
Defined.

Lemma flightAfterTick_path ct f :
  startTime (flightAfterTick ct f) = startTime f
  /\ dynamicPathAdded (flightAfterTick ct f) = dynamicPathAdded f.
Proof.
  rewrite FrameFacts.flightAfterTick_cases.
  repeat match goal with |- context [if ?b then _ else _] => destruct b end;
    auto.
Qed.

(** X13: the converse fails by design of [update]: the frame in which a
    flight's dynamic path is added makes that line visible whatever the
    variable of the button says, and leaves the variable as it is; so a
    flight that starts after the dynamic lines were switched off shows
    its line all the same. *)
Theorem starting_flight_shows_its_line r s p s' p' i f ln :
  nth_error (flights s) i = Some f ->
  nth_error (lines p) i = Some ln ->
  dynamicPathAdded f = false ->
  (startTime f <=? simTime r s) = true ->
  act (Engine (Frame r)) (s, p) = Normal (s', p') ->
  nth_error (lines p') i
  = Some {| pathVisible := pathVisible ln; dynamicPathVisible := true |}
  /\ areDynamicLinesVisible p' = areDynamicLinesVisible p.
Proof.
  intros Hf Hl Na St H. simpl in H.
  destruct (animate r s) as [s1| |]; simpl in H; try discriminate.
  injection H as <- <-. simpl. split; [|reflexivity].
  rewrite Occupancy.updateInstancedPlanes_flights.
  rewrite (updateLines_nth _ _ _ i (flightAfterTick (simTime r s) f) ln);
    [|now rewrite nth_error_map, Hf|exact Hl].
  unfold updateLine.
  destruct (flightAfterTick_path (simTime r s) f) as [-> ->].
  now rewrite St, Na.
Qed.

Lemma starting_flight_witness :
  nth_error
    (lines (snd (match act (Engine (Frame 125.01))
                             (one_flight, dynamic_lines_off) with
                 | Normal sp => sp
                 | _ => (one_flight, dynamic_lines_off)
                 end))) 0
  = Some {| pathVisible := false; dynamicPathVisible := true |}
  /\ areDynamicLinesVisible
       (snd (match act (Engine (Frame 125.01))
                       (one_flight, dynamic_lines_off) with
             | Normal sp => sp
             | _ => (one_flight, dynamic_lines_off)
             end))
     = false.
Proof.
  apply (starting_flight_shows_its_line 125.01 one_flight dynamic_lines_off
           (fst (match act (Engine (Frame 125.01))
                           (one_flight, dynamic_lines_off) with
                 | Normal sp => sp
                 | _ => (one_flight, dynamic_lines_off)
                 end))
           _ 0 fresh
           {| pathVisible := false; dynamicPathVisible := false |});
    vm_compute; reflexivity.
Defined.

End LinesFacts.

(* ================================================================== *)
(** * The tooltip: airports before planes *)
(* ================================================================== *)

Module TooltipFacts.
Import JS Three Engine Samples MoreSamples.
Local Open Scope float_scope.

Section Rays.

Variable Ray : Type.
Variable hitDistance : Ray -> Matrix4 -> option float.
Variable starDistance : Ray -> Airport -> option float.

Lemma insertStar_In h l : forall e,
  In e (insertStar h l) <-> e = h \/ In e l.
Proof.
  induction l as [|h' l IH]; intros e; simpl.
  - intuition.
  - destruct (fst h' <? fst h); simpl; [rewrite IH|]; intuition.
Qed.

Lemma sortedStars_In l : forall e,
  In e (fold_right insertStar [] l) <-> In e l.
Proof.
  induction l as [|h l IH]; intros e; simpl; [tauto|].
  rewrite insertStar_In, IH. intuition.
Qed.

Lemma starHits_In ray near far l d a :
  In (d, a) (starHits starDistance ray near far l) <->
  In a l /\ starDistance ray a = Some d /\ inWindow near far d = true.
Proof.
  unfold starHits, inWindow. rewrite in_flat_map. split.
  - intros (b & Hb & H).
    destruct (starDistance ray b) as [d'|] eqn:E; [|destruct H].
    destruct ((d' <? near) || (far <? d')) eqn:W; [destruct H|].
    destruct H as [[= <- <-]|[]]. rewrite W. auto.
  - intros (Ha & Hd & W). exists a. split; [exact Ha|].
    rewrite Hd. apply negb_true_iff in W. rewrite W. now left.
Qed.

(** X14: airports come before planes.  Whenever the ray meets an
    airport star inside the window of the raycaster, the tooltip is that
    of an airport whose star the ray meets inside the window, whatever
    planes the ray meets and however close they are. *)
Theorem airport_tooltip_has_priority ray near far s a d :
  In a (airportStars s) ->
  starDistance ray a = Some d ->
  inWindow near far d = true ->
  exists a' d',
    mousemove hitDistance starDistance ray near far s = AirportTip a'
    /\ In a' (airportStars s)
    /\ starDistance ray a' = Some d'
    /\ inWindow near far d' = true.
Proof.
  intros Ha Hd W. unfold mousemove.
  assert (Hit : In (d, a) (fold_right insertStar []
                   (starHits starDistance ray near far (airportStars s))))
    by (apply sortedStars_In, starHits_In; auto).
  destruct (fold_right insertStar [] _) as [|[d' a'] r] eqn:E;
    [destruct Hit|].
  assert (First : In (d', a') (fold_right insertStar []
                     (starHits starDistance ray near far (airportStars s))))
    by (rewrite E; now left).
  apply sortedStars_In, starHits_In in First as (A & B & C).
  exists a', d'. auto.
Qed.

End Rays.

(** A ray that meets the written slot at distance 5 and the stars at
    distance 3, on the state in which the flight has landed. *)
Lemma airport_tooltip_witness :
  exists a' d',
    mousemove meets_written_slots meets_every_star tt 0 infinity landed
    = AirportTip a'
    /\ In a' (airportStars landed)
    /\ meets_every_star tt a' = Some d'
    /\ inWindow 0 infinity d' = true.
Proof.
  apply (airport_tooltip_has_priority unit meets_written_slots
           meets_every_star tt 0 infinity landed
           {| lat := 59.94; lon := 30.31; planes := 1 |} 3).
  - vm_compute. auto.
  - reflexivity.
  - vm_compute. reflexivity.
Defined.

End TooltipFacts.

(* ================================================================== *)
(** * The departure time of a flight *)
(* ================================================================== *)

Module DepartureFacts.
Import JS Three Engine Samples Ledger MoreSamples FloatFacts.
Local Open Scope float_scope.

(** X15: a departure time [HH:MM], with the hour below 24 and the
    minute below 60, both of two digits, makes a flight that starts at
    [(HH * 60 + MM) * 60] simulated seconds, exactly. *)
Theorem clock_time_is_seconds_from_midnight M d h m :
  (h < 24)%nat -> (m < 60)%nat ->
  departure_time d = Str (clock_string h m) ->
  startTime (Flight_new M d) = float_of_Z (Z.of_nat ((h * 60 + m) * 60)).
Proof.
  intros Hh Hm E. unfold Flight_new; cbv zeta; cbn [startTime].
  rewrite E. now apply ParseTime.parseTime_well_formed.
Qed.

Lemma clock_time_witness :
  startTime (Flight_new HostMath.host svo_led)
  = float_of_Z (Z.of_nat ((10 * 60 + 0) * 60)).
Proof.
  apply (clock_time_is_seconds_from_midnight HostMath.host svo_led 10 0);
    [lia|lia|reflexivity].
Defined.

Lemma leb_nan_l a : (nan <=? a) = false.
Proof.
  rewrite leb_spec, Prim2SF_nan. reflexivity.
Qed.

Lemma update_NaN_start ct f :
  startTime f = nan -> dynamicPathAdded f = false -> update ct f = Normal f.
Proof.
  intros S A. unfold update, added; cbv zeta.
  rewrite S, leb_nan_l. simpl. now rewrite A.
Qed.

(** X16: a departure time that is a non-empty string without a colon
    makes a flight that nothing ever moves: its start time is NaN, every
    call of [update] returns it as it is, and [updateInstancedPlanes]
    leaves the flight, its slot and the airports as they are, at every
    simulated time.  The plane of such a row stays on the ground of its
    origin for ever. *)
Theorem flight_without_colon_never_starts M d s ct slot airports :
  departure_time d = Str s ->
  s <> EmptyString ->
  ~ In ":"%char (list_ascii_of_string s) ->
  startTime (Flight_new M d) = nan
  /\ update ct (Flight_new M d) = Normal (Flight_new M d)
  /\ updatePlane ct (Flight_new M d) slot airports
     = (Flight_new M d, slot, airports).
Proof.
  intros E Ne No.
  assert (S : startTime (Flight_new M d) = nan).
  { unfold Flight_new; cbv zeta; cbn [startTime]. rewrite E.
    now apply ParseTime.parseTime_without_colon. }
  split; [exact S|]. split.
  - now apply update_NaN_start.
  - unfold updatePlane; cbv zeta.
    now rewrite (ParseTime.NaN_start_never_en_route ct _ S).
Qed.

Lemma without_colon_witness :
  startTime (Flight_new HostMath.host no_colon) = nan
  /\ update 36000 (Flight_new HostMath.host no_colon)
     = Normal (Flight_new HostMath.host no_colon)
  /\ updatePlane 36000 (Flight_new HostMath.host no_colon) Unwritten []
     = (Flight_new HostMath.host no_colon, Unwritten, []).
Proof.
  apply (flight_without_colon_never_starts HostMath.host no_colon "1000").
  - reflexivity.
  - discriminate.
  - simpl. intros [H|[H|[H|[H|[]]]]]; discriminate.
Defined.

End DepartureFacts.

(* ================================================================== *)
(** * The altitude of the path *)
(* ================================================================== *)

Module AltitudeFacts.
Import Three Reals Lra Exact.
Local Open Scope R_scope.





End AltitudeFacts.

(* ================================================================== *)
(** * The speed slider and the rotation of the Earth *)
(* ================================================================== *)

Module ControlsFacts.
Import JS Three Engine Samples Globe FloatFacts.
Local Open Scope float_scope.

(** X18: the slider slows the simulation down.  The position 5, which
    the slider shows at the start, stores the initial acceleration 288;
    and of two positions of the slider the one further to the right
    stores the smaller acceleration. *)
Theorem slider_to_the_right_is_slower i j v w s :
  nth_error sliderValues i = Some v ->
  nth_error sliderValues j = Some w ->
  (i < j)%nat ->
  (TIME_ACCELERATION (speedSliderInput w s)
     <? TIME_ACCELERATION (speedSliderInput v s)) = true
  /\ forall M rows,
       TIME_ACCELERATION (speedSliderInput "5" s)
       = TIME_ACCELERATION (loadFlightData M rows).
Proof.
  intros Hv Hw Lt. split; [|reflexivity].
  assert (Hj : (j < List.length sliderValues)%nat)
    by (apply nth_error_Some; rewrite Hw; discriminate).
  simpl in Hj.
  unfold speedSliderInput; cbn [TIME_ACCELERATION].
  do 10 (destruct j as [|j]; [
    do 10 (destruct i as [|i]; [
      try lia; injection Hv as <-; injection Hw as <-;
      vm_compute; reflexivity|]); lia|]).
  lia.
Qed.

Lemma slider_witness :
  (TIME_ACCELERATION (speedSliderInput "10" one_flight)
     <? TIME_ACCELERATION (speedSliderInput "1" one_flight)) = true
  /\ forall M rows,
       TIME_ACCELERATION (speedSliderInput "5" one_flight)
       = TIME_ACCELERATION (loadFlightData M rows).
Proof.
  apply (slider_to_the_right_is_slower 0 9 "1" "10" one_flight);
    [reflexivity|reflexivity|lia].
Defined.

Lemma finite_shape d :
  is_finite d = true ->
  (exists s, Prim2SF d = S754_zero s)
  \/ exists s m e, Prim2SF d = S754_finite s m e.
Proof.
  unfold is_finite, PrimFloat.is_nan, is_infinity.
  rewrite !FloatAxioms.eqb_spec, abs_spec.
  destruct (Prim2SF d) as [s|s| |s m e]; intros H; eauto.
  - destruct s; vm_compute in H; discriminate H.
  - vm_compute in H. discriminate H.
Qed.

Lemma rest_stays d : is_finite d = true -> 0 + 0 * d = 0.
Proof.
  intros F. apply Prim2SF_inj. rewrite add_spec, mul_spec.
  destruct (finite_shape d F) as [[s ->]|(s & m & e & ->)];
    destruct s; reflexivity.
Qed.

(** X19: the Earth never turns.  Whatever the finite time steps of the
    frames, the rotation of the Earth and its rotation velocity stay at
    0, and the sun stays where the angle 0 puts it. *)
Theorem earth_never_rotates M deltas :
  Forall (fun d => is_finite d = true) deltas ->
  rotations deltas initialEarth = initialEarth
  /\ sunPosition M (rotations deltas initialEarth)
     = mkVector3 (Math_cos M 0 * 10) 0 (Math_sin M 0 * 10).
Proof.
  intros F.
  assert (R : rotations deltas initialEarth = initialEarth).
  { unfold rotations. induction F as [|d deltas Hd _ IH]; [reflexivity|].
    simpl. replace (rotateEarth d initialEarth) with initialEarth;
      [exact IH|].
    unfold rotateEarth, initialEarth; cbv zeta;
      cbn [rotationY rotationVelocity].
    now rewrite (rest_stays d Hd). }
  rewrite R. split; reflexivity.
Qed.

Lemma earth_witness :
  rotations [0.016; 0.017; 0.25] initialEarth = initialEarth
  /\ sunPosition HostMath.host (rotations [0.016; 0.017; 0.25] initialEarth)
     = mkVector3 (Math_cos HostMath.host 0 * 10) 0
                 (Math_sin HostMath.host 0 * 10).
Proof.
  apply (earth_never_rotates HostMath.host [0.016; 0.017; 0.25]).
  repeat constructor.
Defined.

End ControlsFacts.
